(** * Review-status badges on the pull-request list (pr-review-status.tsx)

    A shallow embedding of [source/features/pr-review-status.tsx]: the pure
    classification rules ([getApprovalCount], [isReadyToMerge],
    [needsReview], [hasNewCommitsAfterReview],
    [getLatestCommentOrChangesRequested], [createReviewBadge]) and the
    page-annotation routine [addReviewStatus], which is modelled by explicit
    state passing over a tree-shaped document and a log of the requests
    that were sent. *)

From Stdlib Require Import String Ascii List Bool Arith Lia DecimalString.
From stdpp Require Import base option list strings gmap.

Set Warnings "-register-all,-clear-no-such-hyp".

Local Open Scope string_scope.

(** ** JavaScript strings *)

(** Truthiness of a [string | undefined] value: [undefined] and the empty
    string are falsy, every other string is truthy. *)
Definition truthy (s : option string) : bool :=
  match s with
  | Some (String _ _) => true
  | _ => false
  end.

(** [===] on [string | undefined] values. *)
Definition strictEq (a b : option string) : bool := bool_decide (a = b).

Definition isUpper (c : ascii) : bool :=
  (65 <=? nat_of_ascii c)%nat && (nat_of_ascii c <=? 90)%nat.

Definition lowerChar (c : ascii) : ascii :=
  if isUpper c then ascii_of_nat (nat_of_ascii c + 32) else c.

(** [String.prototype.toLowerCase], on the code units the model has: the
    ASCII capitals are lowered, every other unit is kept. *)
Fixpoint toLowerCase (s : string) : string :=
  match s with
  | EmptyString => EmptyString
  | String c s' => String (lowerChar c) (toLowerCase s')
  end.

(** [String.prototype.includes]: [pat] occurs in [s] at some position. *)
Fixpoint includes (s pat : string) : bool :=
  String.prefix pat s
  || match s with
     | EmptyString => false
     | String _ s' => includes s' pat
     end.

(** A non-negative integer in a template literal. *)
Definition numberToString (n : nat) : string :=
  NilZero.string_of_uint (Nat.to_uint n).

(** ** The response of the batched query *)

Inductive ReviewState :=
| APPROVED
| CHANGES_REQUESTED
| COMMENTED
| DISMISSED
| PENDING.

Global Instance ReviewState_eq_dec : EqDecision ReviewState.
Proof. solve_decision. Defined.

Record Author := { login : string }.
Record Commit := { oid : string }.

(** A node of [reviews]. *)
Record ApprovalNode := { approvalState : string; author : option Author }.

(** A node of [reviewThreads]. *)
Record ThreadNode := { isResolved : bool }.

(** A node of [latestReviews]. *)
Record LatestReviewNode := { latestState : string; latestCommit : option Commit }.

(** [viewerLatestReview]. *)
Record ViewerReview := { state : option ReviewState; commit : option Commit }.

(** A connection [{nodes: Array<A>}]; the code tests [nodes] before it reads
    it, so the field may be missing. *)
Record Connection (A : Type) := { nodes : option (list A) }.
Arguments nodes {A} _.
Arguments Build_Connection {A} _.

(** The [prData] argument of [createReviewBadge]. *)
Record PrData := {
  isDraft : bool;
  title : string;
  prAuthor : option Author;
  reviews : option (Connection ApprovalNode);
  reviewThreads : option (Connection ThreadNode);
  latestReviews : option (Connection LatestReviewNode);
  viewerLatestReview : option ViewerReview;
  headRefOid : string
}.

(** [c?.nodes] *)
Definition nodesOf {A} (c : option (Connection A)) : option (list A) :=
  c ≫= nodes.

(** ** The document *)

(** An element of the page.  [handle] is the identity under which the
    script holds a reference to the element (the observed anchors);
    elements built by the script and never referenced again carry none.
    [pathname] is the property of the same name of an anchor. *)
Inductive Element :=
  Elem (handle : option nat) (tag : string) (classList : list string)
       (attributes : list (string * string)) (pathname : string)
       (children : list Element).

Definition handle (e : Element) : option nat :=
  let 'Elem h _ _ _ _ _ := e in h.
Definition tag (e : Element) : string :=
  let 'Elem _ t _ _ _ _ := e in t.
Definition classList (e : Element) : list string :=
  let 'Elem _ _ c _ _ _ := e in c.
Definition attributes (e : Element) : list (string * string) :=
  let 'Elem _ _ _ a _ _ := e in a.
Definition pathname (e : Element) : string :=
  let 'Elem _ _ _ _ p _ := e in p.
Definition children (e : Element) : list Element :=
  let 'Elem _ _ _ _ _ k := e in k.

(** [e.classList.contains(c)] *)
Definition contains (c : string) (e : Element) : bool :=
  existsb (String.eqb c) (classList e).

(** [e.getAttribute(a)] *)
Definition getAttribute (a : string) (e : Element) : option string :=
  snd <$> find (fun kv => String.eqb a (fst kv)) (attributes e).

(** An element written in JSX: no handle, no pathname. *)
Definition jsx (t : string) (cls : list string) (attrs : list (string * string))
    (kids : list Element) : Element :=
  Elem None t cls attrs EmptyString kids.

(** ** The classifier *)

Record ReviewIconConfig := {
  icon : Element;
  label : string;
  className : string
}.

Definition getReviewIconConfig (reviewState : option ReviewState)
    (hasNewCommits : bool) : option ReviewIconConfig :=
  match reviewState with
  | Some APPROVED =>
      Some {| icon := jsx "CheckIcon" ["v-align-middle"] [] [];
              label := if hasNewCommits
                       then "You approved this PR (new commits since review)"
                       else "You approved this PR";
              className := "rgh-review-status-approved" |}
  | Some CHANGES_REQUESTED =>
      Some {| icon := jsx "XIcon" ["v-align-middle"] [] [];
              label := if hasNewCommits
                       then "You requested changes on this PR (new commits since review)"
                       else "You requested changes on this PR";
              className := "rgh-review-status-changes" |}
  | Some COMMENTED =>
      Some {| icon := jsx "CommentIcon" ["v-align-middle"] [] [];
              label := if hasNewCommits
                       then "You commented on this PR (new commits since review)"
                       else "You commented on this PR";
              className := "rgh-review-status-commented" |}
  | _ => None
  end.

(** The loop of [getApprovalCount]: one [Set.add] per approving node whose
    author login is truthy. *)
Definition addApprover (distinctApprovers : gset string) (review : ApprovalNode)
    : gset string :=
  if String.eqb (approvalState review) "APPROVED"
     && truthy (login <$> author review)
  then match author review with
       | Some a => {[ login a ]} ∪ distinctApprovers
       | None => distinctApprovers
       end
  else distinctApprovers.

Definition getApprovalCount (reviews : option (Connection ApprovalNode)) : nat :=
  match nodesOf reviews with
  | None => 0
  | Some ns => size (foldl addApprover ∅ ns)
  end.

Definition isReadyToMerge (isMyPr isDraft : bool)
    (reviews : option (Connection ApprovalNode)) : bool :=
  isMyPr && negb isDraft && (2 <=? getApprovalCount reviews)%nat.

Definition needsReview (reviewState : option ReviewState) (isDraft : bool)
    (title : string) : bool :=
  let titleContainsWip := includes (toLowerCase title) "wip" in
  negb (bool_decide (is_Some reviewState)) && negb isDraft && negb titleContainsWip.

Definition hasNewCommitsAfterReview (reviewCommitOid headRefOid : option string)
    : bool :=
  truthy reviewCommitOid && truthy headRefOid
  && negb (strictEq reviewCommitOid headRefOid).

Record LatestFeedback := { fbState : string; commitOid : option string }.

Fixpoint firstCommentOrChangesRequested (ns : list LatestReviewNode)
    : option LatestFeedback :=
  match ns with
  | [] => None
  | review :: rest =>
      if String.eqb (latestState review) "COMMENTED"
         || String.eqb (latestState review) "CHANGES_REQUESTED"
      then Some {| fbState := latestState review;
                   commitOid := oid <$> latestCommit review |}
      else firstCommentOrChangesRequested rest
  end.

Definition getLatestCommentOrChangesRequested
    (latestReviews : option (Connection LatestReviewNode)) : option LatestFeedback :=
  match nodesOf latestReviews with
  | None => None
  | Some ns => firstCommentOrChangesRequested ns
  end.

Definition badgeClass : string := "rgh-pr-review-status".
Definition indicatorClass : string := "rgh-review-status-indicator".

Section Classifier.

(** [chrome.runtime.getURL], supplied by the browser. *)
Variable getURL : string → string.

Definition createReviewBadge (prData : PrData) (loggedInUser : option string)
    : option Element :=
  let reviewState := viewerLatestReview prData ≫= state in
  let isMyPr := strictEq (login <$> prAuthor prData) loggedInUser in
  (* ready to merge: the viewer's pull request with at least 2 approvals *)
  if isReadyToMerge isMyPr (isDraft prData) (reviews prData) then
    let approvalCount := getApprovalCount (reviews prData) in
    let hasOpenConversations :=
      match nodesOf (reviewThreads prData) with
      | Some ts => existsb (fun thread => negb (isResolved thread)) ts
      | None => false
      end in
    Some (jsx "span"
           [badgeClass; "tooltipped"; "tooltipped-n"; "rgh-review-status-to-merge"]
           [("aria-label",
             "Ready to merge (" +:+ numberToString approvalCount +:+ " approvals)"
             +:+ (if hasOpenConversations then " - Open conversations"
                  else EmptyString))]
           (jsx "img" []
                [("src", getURL "assets/merge-parrot.gif");
                 ("alt", EmptyString);
                 ("style", "height: 16px; width: 16px")] []
            :: (if hasOpenConversations
                then [jsx "span" [indicatorClass]
                          [("aria-label", "Open conversations")] []]
                else [])))
  else
    (* somebody commented or requested changes, and no commit came since *)
    let feedback :=
      if isMyPr && negb (isDraft prData) then
        match getLatestCommentOrChangesRequested (latestReviews prData) with
        | Some latestCommentOrChanges =>
            let hasNewCommits :=
              hasNewCommitsAfterReview (commitOid latestCommentOrChanges)
                                       (Some (headRefOid prData)) in
            if negb hasNewCommits then
              let isChangesRequested :=
                String.eqb (fbState latestCommentOrChanges) "CHANGES_REQUESTED" in
              Some (jsx "span"
                     [badgeClass; "tooltipped"; "tooltipped-n";
                      "rgh-review-status-feedback"]
                     [("aria-label",
                       if isChangesRequested then "Changes requested on your PR"
                       else "Comment on your PR")]
                     [jsx "FileDiffIcon" ["v-align-middle"] [] []])
            else None
        | None => None
        end
      else None in
    match feedback with
    | Some badge => Some badge
    | None =>
        (* the viewer's own pull request: handled above *)
        if isMyPr then None
        (* no review, not a draft, no WIP in the title *)
        else if needsReview reviewState (isDraft prData) (title prData) then
          Some (jsx "span"
                 [badgeClass; "tooltipped"; "tooltipped-n"; "rgh-review-status-needed"]
                 [("aria-label", "Review needed")]
                 [jsx "EyeIcon" ["v-align-middle"] [] []])
        else
          (* nothing to show without a review, or for a dismissed one *)
          match reviewState with
          | None | Some DISMISSED | Some PENDING => None
          | Some _ =>
              let reviewCommitOid :=
                oid <$> (viewerLatestReview prData ≫= commit) in
              let hasNewCommits :=
                hasNewCommitsAfterReview reviewCommitOid (Some (headRefOid prData)) in
              match getReviewIconConfig reviewState hasNewCommits with
              | None => None
              | Some iconConfig =>
                  let statusClassName :=
                    if hasNewCommits then "rgh-review-status-updated"
                    else "rgh-review-status-reviewed" in
                  Some (jsx "span"
                         [badgeClass; "tooltipped"; "tooltipped-n"; statusClassName]
                         [("aria-label", label iconConfig)]
                         (icon iconConfig
                          :: (if hasNewCommits
                              then [jsx "span" [indicatorClass]
                                        [("aria-label", "New commits since your review")]
                                        []]
                              else [])))
              end
          end
    end.

End Classifier.

(** ** Walking the document *)

(** A handle names the first element carrying it, in document order. *)

Section Walks.

Context {A B : Type}.

(** The first child, from the left, on which [f] answers. *)
Fixpoint firstJust (f : A → option B) (l : list A) : option B :=
  match l with
  | [] => None
  | x :: rest =>
      match f x with
      | Some y => Some y
      | None => firstJust f rest
      end
  end.

End Walks.

Fixpoint Element_tree_ind (P : Element → Prop)
    (step : ∀ h t c a p kids, Forall P kids → P (Elem h t c a p kids))
    (e : Element) : P e :=
  match e with
  | Elem h t c a p kids =>
      step h t c a p kids
        ((fix all (l : list Element) : Forall P l :=
            match l with
            | [] => List.Forall_nil P
            | k :: rest => List.Forall_cons P k rest (Element_tree_ind P step k) (all rest)
            end) kids)
  end.

(** The elements below [e], in document order. *)
Fixpoint descendants (e : Element) : list Element :=
  flat_map (λ k, k :: descendants k) (children e).

(** No element of the subtree of [e] carries a handle. *)
Fixpoint inert (e : Element) : bool :=
  bool_decide (handle e = None) && forallb inert (children e).

(** The element with handle [h] in the subtree of [e]. *)
Fixpoint getElement (h : nat) (e : Element) : option Element :=
  if decide (handle e = Some h) then Some e
  else firstJust (getElement h) (children e).

(** [closestIn c h e] walks down to the element with handle [h]; on the way
    back it answers with the nearest element of class [c] at or above it,
    inside [e].  [None]: the handle is not in [e]; [Some None]: it is, but
    no element at or above it inside [e] has the class. *)
Fixpoint closestIn (c : string) (h : nat) (e : Element) : option (option Element) :=
  if decide (handle e = Some h)
  then Some (if contains c e then Some e else None)
  else match firstJust (closestIn c h) (children e) with
       | Some (Some r) => Some (Some r)
       | Some None => Some (if contains c e then Some e else None)
       | None => None
       end.

(** [link.closest('.c')] in the document [doc]. *)
Definition closest (c : string) (h : nat) (doc : Element) : option Element :=
  mjoin (closestIn c h doc).

(** [e.querySelectorAll('.c')]: the elements of class [c] below [e]. *)
Definition querySelectorAll (c : string) (e : Element) : list Element :=
  filter (λ x, contains c x = true) (descendants e).

(** [e.querySelector('.c')] *)
Definition querySelector (c : string) (e : Element) : option Element :=
  head (querySelectorAll c e).

Section Siblings.

Variable h : nat.

(** The sibling after the child with handle [h], looked for among [kids]
    and, through [below], under them. *)
Fixpoint nextAmong (below : Element → option (option Element))
    (kids : list Element) : option (option Element) :=
  match kids with
  | [] => None
  | k :: rest =>
      if decide (handle k = Some h) then Some (head rest)
      else match below k with
           | Some s => Some s
           | None => nextAmong below rest
           end
  end.

Variable b : Element.

(** [kids] with [b] put after the child with handle [h], looked for among
    [kids] and, through [below], under them. *)
Fixpoint insertAmong (below : Element → option Element)
    (kids : list Element) : option (list Element) :=
  match kids with
  | [] => None
  | k :: rest =>
      if decide (handle k = Some h) then Some (k :: b :: rest)
      else match below k with
           | Some k' => Some (k' :: rest)
           | None => cons k <$> insertAmong below rest
           end
  end.

End Siblings.

Fixpoint nextIn (h : nat) (e : Element) : option (option Element) :=
  nextAmong h (nextIn h) (children e).

(** [link.nextElementSibling]; the root has no sibling. *)
Definition nextElementSibling (h : nat) (doc : Element) : option Element :=
  if decide (handle doc = Some h) then None else mjoin (nextIn h doc).

Fixpoint afterIn (h : nat) (b : Element) (e : Element) : option Element :=
  match e with
  | Elem eh t c a p kids => Elem eh t c a p <$> insertAmong h b (afterIn h b) kids
  end.

(** [link.after(b)]: [b] becomes the next sibling of the link; nothing
    happens when the link has no parent. *)
Definition after (h : nat) (b : Element) (doc : Element) : Element :=
  if decide (handle doc = Some h) then doc
  else default doc (afterIn h b doc).

(** ** The annotation routine *)

Definition rowClass : string := "js-issue-row".

(** [s.split(sep)] for a one-character separator. *)
Fixpoint split (sep : ascii) (s : string) : list string :=
  match s with
  | EmptyString => [EmptyString]
  | String c s' =>
      if Ascii.eqb c sep then EmptyString :: split sep s'
      else match split sep s' with
           | x :: rest => String c x :: rest
           | [] => [String c EmptyString]
           end
  end.

(** A value in a template literal; a missing one reads "undefined". *)
Definition interpolate (s : option string) : string := default "undefined" s.

Definition quote : string := String (ascii_of_nat 34) EmptyString.
Definition newline : string := String (ascii_of_nat 10) EmptyString.
Definition tab : string := String (ascii_of_nat 9) EmptyString.

Fixpoint tabs (n : nat) : string :=
  match n with
  | O => EmptyString
  | S n' => tab +:+ tabs n'
  end.

(** [a.join(sep)] *)
Fixpoint join (sep : string) (l : list string) : string :=
  match l with
  | [] => EmptyString
  | [x] => x
  | x :: rest => x +:+ sep +:+ join sep rest
  end.

(** The lines of the query for one pull request, after its first line. *)
Definition pullRequestFields : list (nat * string) :=
  [ (4, "headRefOid"); (4, "isDraft"); (4, "title");
    (4, "author {"); (5, "login"); (4, "}");
    (4, "reviews(states: APPROVED, first: 10) {");
    (5, "nodes {"); (6, "state"); (6, "author {"); (7, "login"); (6, "}");
    (5, "}"); (4, "}");
    (4, "reviewThreads(first: 10) {");
    (5, "nodes {"); (6, "isResolved"); (5, "}"); (4, "}");
    (4, "latestReviews(first: 10) {");
    (5, "nodes {"); (6, "state"); (6, "commit {"); (7, "oid"); (6, "}");
    (5, "}"); (4, "}");
    (4, "viewerLatestReview {");
    (5, "state"); (5, "commit {"); (6, "oid"); (5, "}"); (4, "}");
    (3, "}"); (2, "}") ].

(** The entry of the response for one pull request: [{pullRequest: ...}]. *)
Record Repository := { pullRequest : option PrData }.

Inductive Outcome := Resolved | Rejected.

(** The page and what was sent to the server so far. *)
Record World := {
  document : Element;
  requests : list string
}.

Section Routine.

(** The collaborators the feature imports: [chrome.runtime.getURL],
    [api.escapeKey], the number read by [Number(...)] with its text in a
    template literal, [api.v4] (no answer when the request fails) and
    [getLoggedInUser()]. *)
Variable getURL : string → string.
Variable escapeKey : option string → option string → option string → string.
Variable JsNumber : Type.
Variable Number : option string → JsNumber.
Variable numberText : JsNumber → string.
Variable v4 : string → option (gmap string (option Repository)).
Variable loggedInUser : option string.

Record PrConfig := {
  key : string;
  link : nat;
  owner : option string;
  name : option string;
  number : JsNumber
}.

(** The filter of [addReviewStatus]: the link has a row, and the row holds
    no badge yet. *)
Definition notYetProcessed (doc : Element) (h : nat) : bool :=
  match closest rowClass h doc with
  | Some row => negb (bool_decide (is_Some (querySelector badgeClass row)))
  | None => false
  end.

Definition linkPathname (doc : Element) (h : nat) : string :=
  from_option pathname EmptyString (getElement h doc).

Definition toPrConfig (doc : Element) (h : nat) : PrConfig :=
  let parts := split "/" (linkPathname doc h) in
  let owner := parts !! 1 in
  let name := parts !! 2 in
  let prNumber := parts !! 4 in
  {| key := escapeKey owner name prNumber;
     link := h;
     owner := owner;
     name := name;
     number := Number prNumber |}.

Definition collect (links : list nat) (doc : Element) : list PrConfig :=
  map (toPrConfig doc) (List.filter (notYetProcessed doc) links).

Definition prQuery (pr : PrConfig) : string :=
  newline +:+ tabs 2 +:+ key pr +:+ ": repository(owner: "
  +:+ quote +:+ interpolate (owner pr) +:+ quote +:+ ", name: "
  +:+ quote +:+ interpolate (name pr) +:+ quote +:+ ") {" +:+ newline
  +:+ tabs 3 +:+ "pullRequest(number: " +:+ numberText (number pr) +:+ ") {"
  +:+ newline
  +:+ join newline (map (λ l, tabs (fst l) +:+ snd l) pullRequestFields)
  +:+ newline +:+ tab.

Definition batchQuery (prConfigs : list PrConfig) : string :=
  join newline (map prQuery prConfigs).

(** [data[pr.key]?.pullRequest] *)
Definition lookupPr (data : gmap string (option Repository)) (pr : PrConfig)
    : option PrData :=
  match data !! key pr with
  | Some (Some repository) => pullRequest repository
  | _ => None
  end.

(** [link.nextElementSibling?.classList.contains('rgh-pr-review-status')] *)
Definition badgeFollows (h : nat) (doc : Element) : bool :=
  match nextElementSibling h doc with
  | Some s => contains badgeClass s
  | None => false
  end.

(** One turn of the loop over [prConfigs]. *)
Definition annotateOne (data : gmap string (option Repository))
    (doc : Element) (pr : PrConfig) : Element :=
  match lookupPr data pr with
  | None => doc
  | Some prData =>
      if badgeFollows (link pr) doc then doc
      else match createReviewBadge getURL prData loggedInUser with
           | Some badge => after (link pr) badge doc
           | None => doc
           end
  end.

(** The loop over [prConfigs], run once the response is there. *)
Definition annotate (data : gmap string (option Repository))
    (prConfigs : list PrConfig) (doc : Element) : Element :=
  foldl (annotateOne data) doc prConfigs.

Definition addReviewStatus (links : list nat) (w : World) : Outcome * World :=
  let prConfigs := collect links (document w) in
  match prConfigs with
  | [] => (Resolved, w)
  | _ :: _ =>
      let query := batchQuery prConfigs in
      let sent := {| document := document w;
                     requests := (requests w ++ [query])%list |} in
      match v4 query with
      | None => (Rejected, sent)
      | Some data =>
          (Resolved,
           {| document := annotate data prConfigs (document sent);
              requests := requests sent |})
      end
  end.

End Routine.

Arguments key {JsNumber} _.
Arguments link {JsNumber} _.
Arguments owner {JsNumber} _.
Arguments name {JsNumber} _.
Arguments number {JsNumber} _.
Arguments toPrConfig escapeKey {JsNumber} Number doc h.
Arguments collect escapeKey {JsNumber} Number links doc.
Arguments prQuery {JsNumber} numberText pr.
Arguments batchQuery {JsNumber} numberText prConfigs.
Arguments lookupPr {JsNumber} data pr.
Arguments annotateOne getURL {JsNumber} loggedInUser data doc pr.
Arguments annotate getURL {JsNumber} loggedInUser data prConfigs doc.
Arguments addReviewStatus getURL escapeKey {JsNumber} Number numberText v4
  loggedInUser links w.

(** ** Earlier revisions of the routine *)

(** The badge of the viewer's own review as the two earlier revisions
    build it: the class of the icon configuration is on it, and
    [rgh-review-status-updated] only when there are new commits.  The
    revisions do not wrap the [&&] chain of the commit ids in [Boolean];
    they use it for its truthiness only, which [hasNewCommitsAfterReview]
    gives. *)
Definition legacyReviewBadge (iconConfig : ReviewIconConfig)
    (hasNewCommits : bool) : Element :=
  jsx "span"
    ([badgeClass; "tooltipped"; "tooltipped-n"; className iconConfig]
     ++ (if hasNewCommits then ["rgh-review-status-updated"] else []))
    [("aria-label", label iconConfig)]
    (icon iconConfig
     :: (if hasNewCommits
         then [jsx "span" [indicatorClass]
                   [("aria-label", "New commits since your review")] []]
         else [])).

(** The revision that shows the viewer's own review only
    (src/unnamed/part_000). *)
Module Part000.

(** One turn of the loop of [addReviewStatus]. *)
Definition annotateOne {JsNumber : Type} (data : gmap string (option Repository))
    (doc : Element) (pr : PrConfig JsNumber) : Element :=
  match lookupPr data pr with
  | None => doc
  | Some prData =>
      let reviewState := viewerLatestReview prData ≫= state in
      match reviewState with
      | None | Some DISMISSED | Some PENDING => doc
      | Some _ =>
          if badgeFollows (link pr) doc then doc
          else
            let reviewCommitOid := oid <$> (viewerLatestReview prData ≫= commit) in
            let hasNewCommits :=
              hasNewCommitsAfterReview reviewCommitOid (Some (headRefOid prData)) in
            match getReviewIconConfig reviewState hasNewCommits with
            | None => doc
            | Some iconConfig =>
                after (link pr) (legacyReviewBadge iconConfig hasNewCommits) doc
            end
      end
  end.

(** What a turn puts after the link, read off [annotateOne]. *)
Definition badgeFor (prData : PrData) : option Element :=
  let reviewState := viewerLatestReview prData ≫= state in
  match reviewState with
  | None | Some DISMISSED | Some PENDING => None
  | Some _ =>
      let hasNewCommits :=
        hasNewCommitsAfterReview (oid <$> (viewerLatestReview prData ≫= commit))
                                 (Some (headRefOid prData)) in
      (λ iconConfig, legacyReviewBadge iconConfig hasNewCommits)
        <$> getReviewIconConfig reviewState hasNewCommits
  end.

End Part000.

(** The revision that added the ready-to-merge and review-needed badges
    (src/unnamed/part_001). *)
Module Part001.

Definition annotateOne {JsNumber : Type} (loggedInUser : option string)
    (data : gmap string (option Repository))
    (doc : Element) (pr : PrConfig JsNumber) : Element :=
  match lookupPr data pr with
  | None => doc
  | Some prData =>
      let reviewState := viewerLatestReview prData ≫= state in
      if badgeFollows (link pr) doc then doc
      else
        let isMyPr := strictEq (login <$> prAuthor prData) loggedInUser in
        let readyToMerge :=
          if isMyPr && negb (isDraft prData) then
            match nodesOf (reviews prData) with
            | Some ns =>
                let approvalCount :=
                  length (List.filter
                            (λ review, String.eqb (approvalState review) "APPROVED") ns) in
                if (2 <=? approvalCount)%nat then
                  Some (jsx "span"
                         [badgeClass; "tooltipped"; "tooltipped-n";
                          "rgh-review-status-to-merge"]
                         [("aria-label",
                           "Ready to merge (" +:+ numberToString approvalCount
                           +:+ " approvals)")]
                         [jsx "GitMergeIcon" ["v-align-middle"] [] []])
                else None
            | None => None
            end
          else None in
        match readyToMerge with
        | Some badge => after (link pr) badge doc
        | None =>
            if isMyPr then doc
            else
              let titleContainsWip := includes (toLowerCase (title prData)) "wip" in
              let needsReview :=
                negb (bool_decide (is_Some reviewState)) && negb (isDraft prData)
                && negb titleContainsWip in
              if needsReview then
                after (link pr)
                  (jsx "span"
                     [badgeClass; "tooltipped"; "tooltipped-n";
                      "rgh-review-status-needed"]
                     [("aria-label", "Review needed")]
                     [jsx "EyeIcon" ["v-align-middle"] [] []])
                  doc
              else
                match reviewState with
                | None | Some DISMISSED | Some PENDING => doc
                | Some _ =>
                    let reviewCommitOid :=
                      oid <$> (viewerLatestReview prData ≫= commit) in
                    let hasNewCommits :=
                      hasNewCommitsAfterReview reviewCommitOid
                                               (Some (headRefOid prData)) in
                    match getReviewIconConfig reviewState hasNewCommits with
                    | None => doc
                    | Some iconConfig =>
                        after (link pr)
                          (legacyReviewBadge iconConfig hasNewCommits) doc
                    end
                end
        end
  end.

(** What a turn puts after the link, read off [annotateOne]. *)
Definition badgeFor (prData : PrData) (loggedInUser : option string)
    : option Element :=
  let reviewState := viewerLatestReview prData ≫= state in
  let isMyPr := strictEq (login <$> prAuthor prData) loggedInUser in
  let approvalCount :=
    length (List.filter (λ review, String.eqb (approvalState review) "APPROVED")
                        (default [] (nodesOf (reviews prData)))) in
  if isMyPr && negb (isDraft prData) && (2 <=? approvalCount)%nat then
    Some (jsx "span"
           [badgeClass; "tooltipped"; "tooltipped-n"; "rgh-review-status-to-merge"]
           [("aria-label",
             "Ready to merge (" +:+ numberToString approvalCount +:+ " approvals)")]
           [jsx "GitMergeIcon" ["v-align-middle"] [] []])
  else if isMyPr then None
  else if needsReview reviewState (isDraft prData) (title prData) then
    Some (jsx "span"
           [badgeClass; "tooltipped"; "tooltipped-n"; "rgh-review-status-needed"]
           [("aria-label", "Review needed")]
           [jsx "EyeIcon" ["v-align-middle"] [] []])
  else Part000.badgeFor prData.

End Part001.

(** ** Sample snapshots *)

Definition noReviews {A} : option (Connection A) := Some (Build_Connection (Some [])).

Definition approvalBy (l : string) : ApprovalNode :=
  {| approvalState := "APPROVED"; author := Some {| login := l |} |}.

(** The viewer's pull request with two approvals and an open thread. *)
Definition sampleReady : PrData :=
  {| isDraft := false; title := "Add feature";
     prAuthor := Some {| login := "me" |};
     reviews := Some (Build_Connection
                        (Some [approvalBy "alice"; approvalBy "bob"; approvalBy "alice"]));
     reviewThreads := Some (Build_Connection
                              (Some [{| isResolved := true |}; {| isResolved := false |}]));
     latestReviews := Some (Build_Connection
                              (Some [{| latestState := "CHANGES_REQUESTED";
                                        latestCommit := Some {| oid := "def" |} |}]));
     viewerLatestReview := None;
     headRefOid := "def" |}.

(** The viewer's pull request with a request for changes on the head commit. *)
Definition sampleFeedback : PrData :=
  {| isDraft := false; title := "Add feature";
     prAuthor := Some {| login := "me" |};
     reviews := Some (Build_Connection (Some [approvalBy "alice"]));
     reviewThreads := noReviews;
     latestReviews := Some (Build_Connection
                              (Some [{| latestState := "APPROVED";
                                        latestCommit := Some {| oid := "abc" |} |};
                                     {| latestState := "CHANGES_REQUESTED";
                                        latestCommit := Some {| oid := "def" |} |}]));
     viewerLatestReview := None;
     headRefOid := "def" |}.

(** The viewer's pull request with a comment that carries no commit. *)
Definition sampleCommentNoCommit : PrData :=
  {| isDraft := false; title := "Add feature";
     prAuthor := Some {| login := "me" |};
     reviews := noReviews;
     reviewThreads := noReviews;
     latestReviews := Some (Build_Connection
                              (Some [{| latestState := "COMMENTED";
                                        latestCommit := None |}]));
     viewerLatestReview := None;
     headRefOid := "def" |}.

(** The viewer's pull request with a comment made before the head commit. *)
Definition sampleOutdatedComment : PrData :=
  {| isDraft := false; title := "Add feature";
     prAuthor := Some {| login := "me" |};
     reviews := noReviews;
     reviewThreads := noReviews;
     latestReviews := Some (Build_Connection
                              (Some [{| latestState := "COMMENTED";
                                        latestCommit := Some {| oid := "abc" |} |}]));
     viewerLatestReview := None;
     headRefOid := "def" |}.

(** Somebody else's pull request, with the given title and viewer review. *)
Definition sampleOther (t : string) (vr : option ViewerReview) : PrData :=
  {| isDraft := false; title := t;
     prAuthor := Some {| login := "alice" |};
     reviews := noReviews;
     reviewThreads := noReviews;
     latestReviews := noReviews;
     viewerLatestReview := vr;
     headRefOid := "def" |}.

Definition sampleApprovedOn (c : string) : ViewerReview :=
  {| state := Some APPROVED; commit := Some {| oid := c |} |}.

Definition sampleGetURL (path : string) : string :=
  "chrome-extension://refined-github/" +:+ path.

(** A pull-request list with two rows, and the collaborators around it. *)
Definition sampleLink (h : nat) (path : string) : Element :=
  Elem (Some h) "a" ["js-navigation-open"] [] path [].

Definition sampleRow (content : list Element) : Element :=
  Elem None "div" ["Box-row"; rowClass] [] EmptyString
    [Elem None "div" [] [] EmptyString content].

Definition samplePage : Element :=
  Elem None "div" [] [] EmptyString
    [sampleRow [sampleLink 1 "/o/n/pull/5"; jsx "span" ["labels"] [] []];
     sampleRow [sampleLink 2 "/o/n/pull/6"]].

(** A list whose only row holds a badge already. *)
Definition sampleBadgedPage : Element :=
  Elem None "div" [] [] EmptyString
    [sampleRow [sampleLink 1 "/o/n/pull/5"; jsx "span" [badgeClass] [] []]].


Definition sampleEscapeKey (o n p : option string) : string :=
  "_" +:+ interpolate o +:+ "_" +:+ interpolate n +:+ "_" +:+ interpolate p.

(** The server knows pull request 5 only. *)
Definition sampleData : gmap string (option Repository) :=
  {[ "_o_n_5" := Some {| pullRequest := Some sampleReady |} ]}.

Definition sampleV4 (query : string) : option (gmap string (option Repository)) :=
  Some sampleData.

Definition sampleRun : list nat → World → Outcome * World :=
  addReviewStatus sampleGetURL sampleEscapeKey (λ s : option string, s)
    interpolate sampleV4 (Some "me").

(* ================================================================== *)
(** * Properties *)
(* ================================================================== *)

(** ** Strings *)

Lemma prefix_app (p post : string) : String.prefix p (p +:+ post) = true.
Proof.
  induction p as [|c p IH]; simpl.
  - by destruct post.
  - destruct (ascii_dec c c); [done | congruence].
Qed.

Lemma prefix_inv (p s : string) :
  String.prefix p s = true → ∃ post, s = p +:+ post.
Proof.
  revert s. induction p as [|c p IH]; intros s H.
  - by exists s.
  - destruct s as [|d s]; simpl in H; [done|].
    destruct (ascii_dec c d) as [->|]; [|done].
    destruct (IH _ H) as [post ->]. by exists post.
Qed.

Lemma includes_unfold (s pat : string) :
  includes s pat
  = String.prefix pat s
    || match s with EmptyString => false | String _ s' => includes s' pat end.
Proof. by destruct s. Qed.

Lemma includes_intro (pre pat post : string) :
  includes (pre +:+ pat +:+ post) pat = true.
Proof.
  induction pre as [|c pre IH].
  - change (includes (pat +:+ post) pat = true).
    rewrite includes_unfold, prefix_app. done.
  - simpl String.append. simpl includes. rewrite IH. apply orb_true_r.
Qed.

Lemma includes_inv (s pat : string) :
  includes s pat = true → ∃ pre post, s = pre +:+ pat +:+ post.
Proof.
  induction s as [|c s IH]; rewrite includes_unfold; intros H.
  - rewrite orb_false_r in H. destruct (prefix_inv _ _ H) as [post ->].
    by exists EmptyString, post.
  - apply orb_true_iff in H as [H|H].
    + destruct (prefix_inv _ _ H) as [post ->]. by exists EmptyString, post.
    + destruct (IH H) as (pre & post & ->). by exists (String c pre), post.
Qed.

Lemma toLowerCase_app (a b : string) :
  toLowerCase (a +:+ b) = toLowerCase a +:+ toLowerCase b.
Proof. induction a as [|c a IH]; simpl; [done | by rewrite IH]. Qed.

Lemma toLowerCase_split (s x y : string) :
  toLowerCase s = x +:+ y →
  ∃ s1 s2, s = s1 +:+ s2 ∧ toLowerCase s1 = x ∧ toLowerCase s2 = y.
Proof.
  revert s. induction x as [|c x IH]; intros s H.
  - by exists EmptyString, s.
  - destruct s as [|d s]; simpl in H; [done|].
    injection H as Hc H. destruct (IH _ H) as (s1 & s2 & -> & <- & <-).
    exists (String d s1), s2. simpl. by rewrite Hc.
Qed.

Lemma lowerChar_cases (c : ascii) (l u : ascii) :
  isUpper u = true → lowerChar u = l → isUpper l = false →
  (∀ d, lowerChar d = l → d = l ∨ d = u) →
  lowerChar c = l ↔ c = l ∨ c = u.
Proof.
  intros Hu Hl Hn Hall. split; [apply Hall|].
  intros [->| ->]; [|done]. unfold lowerChar. by rewrite Hn.
Qed.

Lemma lowerChar_w (c : ascii) :
  lowerChar c = "w"%char ↔ c = "w"%char ∨ c = "W"%char.
Proof.
  apply lowerChar_cases; try done.
  intros [[] [] [] [] [] [] [] []]; vm_compute; intros H;
    first [discriminate H | by left | by right].
Qed.

Lemma lowerChar_i (c : ascii) :
  lowerChar c = "i"%char ↔ c = "i"%char ∨ c = "I"%char.
Proof.
  apply lowerChar_cases; try done.
  intros [[] [] [] [] [] [] [] []]; vm_compute; intros H;
    first [discriminate H | by left | by right].
Qed.

Lemma lowerChar_p (c : ascii) :
  lowerChar c = "p"%char ↔ c = "p"%char ∨ c = "P"%char.
Proof.
  apply lowerChar_cases; try done.
  intros [[] [] [] [] [] [] [] []]; vm_compute; intros H;
    first [discriminate H | by left | by right].
Qed.

(** The title contains "wip" in some mix of cases. *)
Definition containsWip (t : string) : Prop :=
  ∃ pre a b c post,
    t = pre +:+ String a (String b (String c post))
    ∧ (a = "w" ∨ a = "W")%char ∧ (b = "i" ∨ b = "I")%char
    ∧ (c = "p" ∨ c = "P")%char.

Lemma titleContainsWip_spec (t : string) :
  includes (toLowerCase t) "wip" = true ↔ containsWip t.
Proof.
  split.
  - intros H. apply includes_inv in H as (pre & post & H).
    apply toLowerCase_split in H as (s1 & s2 & -> & <- & H).
    destruct s2 as [|a [|b [|c s2]]]; simpl in H; try done.
    injection H as Ha Hb Hc _.
    exists s1, a, b, c, s2. split; [done|].
    by rewrite <- lowerChar_w, <- lowerChar_i, <- lowerChar_p.
  - intros (pre & a & b & c & post & -> & Ha & Hb & Hc).
    apply lowerChar_w in Ha. apply lowerChar_i in Hb. apply lowerChar_p in Hc.
    rewrite toLowerCase_app. simpl. rewrite Ha, Hb, Hc.
    apply (includes_intro (toLowerCase pre) "wip" (toLowerCase post)).
Qed.

(** ** The approval count *)

(** The login under which a review node counts as an approval: its state
    is APPROVED and its author login is truthy. *)
Definition approvingLogin (review : ApprovalNode) : option string :=
  if String.eqb (approvalState review) "APPROVED"
  then match author review with
       | Some a => if truthy (Some (login a)) then Some (login a) else None
       | None => None
       end
  else None.

Lemma addApprover_spec (X : gset string) (review : ApprovalNode) :
  addApprover X review
  = match approvingLogin review with Some l => {[ l ]} ∪ X | None => X end.
Proof.
  unfold addApprover, approvingLogin.
  destruct (String.eqb _ _); [|done].
  destruct (author review) as [[l]|]; simpl; [|done].
  by destruct l.
Qed.

Lemma foldl_addApprover (ns : list ApprovalNode) (X : gset string) :
  foldl addApprover X ns = X ∪ list_to_set (omap approvingLogin ns).
Proof.
  revert X. induction ns as [|r ns IH]; intros X; simpl.
  - set_solver.
  - rewrite IH, addApprover_spec.
    destruct (approvingLogin r); simpl; set_solver.
Qed.

Lemma size_list_to_set_remove_dups (l : list string) :
  size (list_to_set (C := gset string) l) = length (remove_dups l).
Proof.
  rewrite <- (size_list_to_set (C := gset string) (remove_dups l))
    by apply NoDup_remove_dups.
  f_equal. apply set_eq. intros x.
  by rewrite !elem_of_list_to_set, elem_of_remove_dups.
Qed.

Lemma getApprovalCount_nodes (ns : list ApprovalNode) :
  getApprovalCount (Some (Build_Connection (Some ns)))
  = length (remove_dups (omap approvingLogin ns)).
Proof.
  unfold getApprovalCount. simpl. rewrite foldl_addApprover.
  rewrite <- size_list_to_set_remove_dups. f_equal. set_solver.
Qed.

Lemma approvingLogin_Some (review : ApprovalNode) (l : string) :
  approvingLogin review = Some l
  ↔ approvalState review = "APPROVED"
    ∧ login <$> author review = Some l ∧ l ≠ EmptyString.
Proof.
  unfold approvingLogin.
  destruct (String.eqb_spec (approvalState review) "APPROVED") as [->|Hne].
  - destruct (author review) as [[a]|]; simpl.
    + destruct a; simpl; naive_solver.
    + naive_solver.
  - naive_solver.
Qed.

(** C10: [getApprovalCount] is the number of distinct logins among the
    nodes that are APPROVED and whose author login is present (a login that
    is missing, or empty and so falsy, is skipped); a login that approved
    several times is counted once, and the count is at most the number of
    distinct logins among all fetched nodes.  Without nodes the count is 0. *)
Theorem getApprovalCount_distinct_approvers :
  (∀ ns : list ApprovalNode,
     getApprovalCount (Some (Build_Connection (Some ns)))
     = length (remove_dups (omap approvingLogin ns))
     ∧ (∀ l, l ∈ omap approvingLogin ns
             ↔ l ≠ EmptyString
               ∧ ∃ review, review ∈ ns ∧ approvalState review = "APPROVED"
                           ∧ login <$> author review = Some l)
     ∧ (∀ review, approvalState review = "APPROVED" →
          (login <$> author review = None
           ∨ ∃ l, l ∈ omap approvingLogin ns ∧ login <$> author review = Some l) →
          getApprovalCount (Some (Build_Connection (Some (ns ++ [review])%list)))
          = getApprovalCount (Some (Build_Connection (Some ns))))
     ∧ (getApprovalCount (Some (Build_Connection (Some ns)))
        ≤ length (remove_dups (omap (λ review, login <$> author review) ns)))%nat)
  ∧ getApprovalCount None = 0
  ∧ getApprovalCount (Some (Build_Connection None)) = 0.
Proof.
  split; [|done]. intros ns.
  assert (Hmem : ∀ l, l ∈ omap approvingLogin ns
             ↔ l ≠ EmptyString
               ∧ ∃ review, review ∈ ns ∧ approvalState review = "APPROVED"
                           ∧ login <$> author review = Some l).
  { intros l. rewrite list_elem_of_omap. split.
    - intros (r & Hr & H). apply approvingLogin_Some in H. naive_solver.
    - intros (Hl & r & Hr & Hs & Ha). exists r. split; [done|].
      by apply approvingLogin_Some. }
  split; [apply getApprovalCount_nodes|]. split; [exact Hmem|]. split.
  - intros r Hs Hr. rewrite !getApprovalCount_nodes.
    rewrite <- !size_list_to_set_remove_dups. f_equal.
    rewrite omap_app, list_to_set_app_L. simpl.
    destruct (approvingLogin r) as [l|] eqn:E; simpl; [|set_solver].
    apply approvingLogin_Some in E as (_ & Ha & Hl).
    destruct Hr as [Hr|(l' & Hin & Hr)]; [congruence|].
    assert (l' = l) as -> by congruence.
    apply set_eq. intros x. rewrite elem_of_union, !elem_of_list_to_set.
    set_solver.
  - rewrite getApprovalCount_nodes, <- !size_list_to_set_remove_dups.
    apply subseteq_size. intros l. rewrite !elem_of_list_to_set.
    rewrite Hmem, list_elem_of_omap. naive_solver.
Qed.

(** ** Commits and feedback *)

Lemma truthy_Some (s : string) : truthy (Some s) = true ↔ s ≠ EmptyString.
Proof. destruct s; simpl; naive_solver. Qed.

Lemma strictEq_true (a b : option string) : a = b → strictEq a b = true.
Proof. intros ->. unfold strictEq. by rewrite bool_decide_eq_true. Qed.

Lemma strictEq_false (a b : option string) : a ≠ b → strictEq a b = false.
Proof. intros H. unfold strictEq. by rewrite bool_decide_eq_false. Qed.

Lemma hasNewCommitsAfterReview_true (r h : option string) :
  hasNewCommitsAfterReview r h = true
  ↔ ∃ a b, r = Some a ∧ h = Some b
           ∧ a ≠ EmptyString ∧ b ≠ EmptyString ∧ a ≠ b.
Proof.
  unfold hasNewCommitsAfterReview, strictEq.
  rewrite !andb_true_iff, negb_true_iff, bool_decide_eq_false.
  split.
  - intros [[Hr Hh] Hne].
    destruct r as [a|]; [|done]. destruct h as [b|]; [|done].
    apply truthy_Some in Hr. apply truthy_Some in Hh.
    exists a, b. naive_solver.
  - intros (a & b & -> & -> & Ha & Hb & Hne).
    rewrite !truthy_Some. naive_solver.
Qed.

Lemma hasNewCommitsAfterReview_same (c : string) :
  hasNewCommitsAfterReview (Some c) (Some c) = false.
Proof.
  apply not_true_is_false. rewrite hasNewCommitsAfterReview_true. naive_solver.
Qed.

(** A review node that is a comment or a request for changes. *)
Definition isFeedback (review : LatestReviewNode) : Prop :=
  latestState review = "COMMENTED" ∨ latestState review = "CHANGES_REQUESTED".

(** [review] is the first comment or request for changes of [ns]. *)
Definition mostRecentFeedback (ns : list LatestReviewNode)
    (review : LatestReviewNode) : Prop :=
  ∃ pre post, ns = (pre ++ review :: post)%list
              ∧ Forall (λ r, ¬ isFeedback r) pre ∧ isFeedback review.

Lemma isFeedback_test (review : LatestReviewNode) :
  String.eqb (latestState review) "COMMENTED"
  || String.eqb (latestState review) "CHANGES_REQUESTED" = true
  ↔ isFeedback review.
Proof.
  unfold isFeedback. rewrite orb_true_iff.
  by rewrite !String.eqb_eq.
Qed.

Lemma firstCommentOrChangesRequested_Some (ns : list LatestReviewNode)
    (review : LatestReviewNode) :
  mostRecentFeedback ns review →
  firstCommentOrChangesRequested ns
  = Some {| fbState := latestState review;
            commitOid := oid <$> latestCommit review |}.
Proof.
  intros (pre & post & -> & Hpre & Hr).
  induction Hpre as [|x pre Hx _ IH]; simpl.
  - apply isFeedback_test in Hr. by rewrite Hr.
  - destruct (_ || _) eqn:E; [|done].
    apply isFeedback_test in E. done.
Qed.

Lemma firstCommentOrChangesRequested_None (ns : list LatestReviewNode) :
  Forall (λ r, ¬ isFeedback r) ns → firstCommentOrChangesRequested ns = None.
Proof.
  induction 1 as [|x ns Hx _ IH]; simpl; [done|].
  destruct (_ || _) eqn:E; [|done]. apply isFeedback_test in E. done.
Qed.

(** ** What a badge shows *)

Definition ariaLabel (b : Element) : option string :=
  getAttribute "aria-label" b.

(** The label of the indicator dot inside a badge, if it has one. *)
Definition indicator (b : Element) : option string :=
  find (contains indicatorClass) (children b) ≫= getAttribute "aria-label".

Definition hasUnresolvedThread (pr : PrData) : Prop :=
  ∃ ts thread, nodesOf (reviewThreads pr) = Some ts
               ∧ thread ∈ ts ∧ isResolved thread = false.

Lemma existsb_unresolved (ts : list ThreadNode) :
  existsb (λ thread, negb (isResolved thread)) ts = true
  ↔ ∃ thread, thread ∈ ts ∧ isResolved thread = false.
Proof.
  rewrite existsb_exists. setoid_rewrite list_elem_of_In.
  by setoid_rewrite negb_true_iff.
Qed.

(** The head commit has moved on from the commit the viewer reviewed. *)
Definition headAdvanced (vr : ViewerReview) (pr : PrData) : Prop :=
  ∃ c, oid <$> commit vr = Some c ∧ c ≠ EmptyString
       ∧ headRefOid pr ≠ EmptyString ∧ c ≠ headRefOid pr.

Lemma hasNewCommits_headAdvanced (vr : ViewerReview) (pr : PrData) :
  hasNewCommitsAfterReview (oid <$> commit vr) (Some (headRefOid pr)) = true
  ↔ headAdvanced vr pr.
Proof.
  rewrite hasNewCommitsAfterReview_true. unfold headAdvanced. naive_solver.
Qed.

(** ** The classification rules *)

(** The viewer's pull request has no comment or request for changes
    among its latest reviews. *)
Definition noFeedback (pr : PrData) : Prop :=
  nodesOf (latestReviews pr) = None
  ∨ ∃ ns, nodesOf (latestReviews pr) = Some ns ∧ Forall (λ r, ¬ isFeedback r) ns.

(** The first comment or request for changes was made on the head commit. *)
Definition feedbackOnHead (pr : PrData) : Prop :=
  ∃ ns review, nodesOf (latestReviews pr) = Some ns
               ∧ mostRecentFeedback ns review
               ∧ oid <$> latestCommit review = Some (headRefOid pr).

(** The first comment or request for changes was made on a commit that is
    present and differs from the (present) head commit. *)
Definition feedbackOutdated (pr : PrData) : Prop :=
  ∃ ns review c, nodesOf (latestReviews pr) = Some ns
                 ∧ mostRecentFeedback ns review
                 ∧ oid <$> latestCommit review = Some c
                 ∧ c ≠ EmptyString ∧ headRefOid pr ≠ EmptyString
                 ∧ c ≠ headRefOid pr.

Section ClassifierProperties.

Variable getURL : string → string.

Lemma createReviewBadge_not_ready (pr : PrData) (user : option string) :
  login <$> prAuthor pr = user →
  isDraft pr = true ∨ (getApprovalCount (reviews pr) < 2)%nat →
  isReadyToMerge (strictEq (login <$> prAuthor pr) user) (isDraft pr) (reviews pr)
  = false.
Proof.
  intros Hme H. unfold isReadyToMerge. rewrite (strictEq_true _ _ Hme).
  destruct H as [->|H]; [done|].
  destruct (isDraft pr); [done|]. cbn [andb negb]. by apply Nat.leb_gt.
Qed.

Lemma isReadyToMerge_other (pr : PrData) (user : option string) :
  login <$> prAuthor pr ≠ user →
  isReadyToMerge (strictEq (login <$> prAuthor pr) user) (isDraft pr) (reviews pr)
  = false.
Proof. intros H. unfold isReadyToMerge. by rewrite (strictEq_false _ _ H). Qed.

(** C1: a pull request of the viewer that is not a draft and has at least
    two distinct approvers gets the ready-to-merge badge, whatever the
    other fields are; the label gives the approval count, and the badge
    flags open conversations exactly when a review thread is unresolved. *)
Theorem ready_to_merge_badge (pr : PrData) (user : option string) :
  isDraft pr = false →
  login <$> prAuthor pr = user →
  (2 ≤ getApprovalCount (reviews pr))%nat →
  ∃ b, createReviewBadge getURL pr user = Some b
       ∧ contains badgeClass b = true
       ∧ contains "rgh-review-status-to-merge" b = true
       ∧ (hasUnresolvedThread pr →
            ariaLabel b
            = Some ("Ready to merge ("
                    +:+ numberToString (getApprovalCount (reviews pr))
                    +:+ " approvals) - Open conversations")
            ∧ indicator b = Some "Open conversations")
       ∧ (¬ hasUnresolvedThread pr →
            ariaLabel b
            = Some ("Ready to merge ("
                    +:+ numberToString (getApprovalCount (reviews pr))
                    +:+ " approvals)")
            ∧ indicator b = None).
Proof.
  intros Hdraft Hme Hcount. unfold createReviewBadge, isReadyToMerge.
  rewrite (strictEq_true _ _ Hme), Hdraft.
  apply Nat.leb_le in Hcount. rewrite Hcount. simpl.
  eexists. split; [reflexivity|].
  split; [reflexivity|]. split; [reflexivity|].
  unfold hasUnresolvedThread.
  destruct (nodesOf (reviewThreads pr)) as [ts|].
  - destruct (existsb _ ts) eqn:E.
    + split; [intros _; by split|].
      intros []. apply existsb_unresolved in E as (t & ? & ?). eauto.
    + split; [|intros _; by split].
      intros (ts' & t & [= <-] & Ht & Hres).
      assert (existsb (λ thread, negb (isResolved thread)) ts = true)
        by (apply existsb_unresolved; eauto).
      congruence.
  - split; [by intros (? & ? & ? & _)|intros _; by split].
Qed.

(** The feedback branch: on a pull request of the viewer that is not a
    draft and not ready to merge, the first comment or request for
    changes decides. *)
Lemma createReviewBadge_feedback (pr : PrData) (user : option string)
    (fb : LatestFeedback) :
  login <$> prAuthor pr = user →
  isDraft pr = false →
  (getApprovalCount (reviews pr) < 2)%nat →
  getLatestCommentOrChangesRequested (latestReviews pr) = Some fb →
  hasNewCommitsAfterReview (commitOid fb) (Some (headRefOid pr)) = false →
  ∃ b, createReviewBadge getURL pr user = Some b
       ∧ contains badgeClass b = true
       ∧ contains "rgh-review-status-feedback" b = true
       ∧ ariaLabel b
         = Some (if String.eqb (fbState fb) "CHANGES_REQUESTED"
                 then "Changes requested on your PR" else "Comment on your PR")
       ∧ indicator b = None.
Proof.
  intros Hme Hdraft Hcount Hfb Hnew. unfold createReviewBadge.
  rewrite createReviewBadge_not_ready by auto.
  rewrite (strictEq_true _ _ Hme), Hdraft, Hfb, Hnew. simpl.
  eexists. split; [reflexivity|]. by repeat split.
Qed.

Lemma getLatest_mostRecent (pr : PrData) (ns : list LatestReviewNode)
    (review : LatestReviewNode) :
  nodesOf (latestReviews pr) = Some ns →
  mostRecentFeedback ns review →
  getLatestCommentOrChangesRequested (latestReviews pr)
  = Some {| fbState := latestState review;
            commitOid := oid <$> latestCommit review |}.
Proof.
  intros Hns H. unfold getLatestCommentOrChangesRequested. rewrite Hns.
  by apply firstCommentOrChangesRequested_Some.
Qed.

(** C2: on a pull request of the viewer that is not a draft and has fewer
    than two distinct approvers, when the first COMMENTED or
    CHANGES_REQUESTED node of the latest reviews was made on the head
    commit, the feedback badge is shown; its label says "Changes
    requested" for a request for changes and "Comment" for a comment. *)
Theorem feedback_pending_badge (pr : PrData) (user : option string)
    (ns : list LatestReviewNode) (review : LatestReviewNode) :
  login <$> prAuthor pr = user →
  isDraft pr = false →
  (getApprovalCount (reviews pr) < 2)%nat →
  nodesOf (latestReviews pr) = Some ns →
  mostRecentFeedback ns review →
  oid <$> latestCommit review = Some (headRefOid pr) →
  ∃ b, createReviewBadge getURL pr user = Some b
       ∧ contains badgeClass b = true
       ∧ contains "rgh-review-status-feedback" b = true
       ∧ (latestState review = "CHANGES_REQUESTED" →
            ariaLabel b = Some "Changes requested on your PR")
       ∧ (latestState review = "COMMENTED" →
            ariaLabel b = Some "Comment on your PR").
Proof.
  intros Hme Hdraft Hcount Hns Hrecent Hoid.
  destruct (createReviewBadge_feedback pr user
              {| fbState := latestState review;
                 commitOid := oid <$> latestCommit review |})
    as (b & Hb & Hc1 & Hc2 & Hl & _); auto.
  - by eapply getLatest_mostRecent.
  - simpl. rewrite Hoid. apply hasNewCommitsAfterReview_same.
  - exists b. repeat split; auto; intros Hs; rewrite Hl; simpl; by rewrite Hs.
Qed.

(** C3: on a pull request of somebody else that the viewer has not
    reviewed, the review-needed badge is shown when the pull request is
    not a draft and its title has no "wip" in any mix of cases; a title
    with "wip" in it leaves the row without a badge. *)
Theorem review_needed_badge (pr : PrData) (user : option string) :
  login <$> prAuthor pr ≠ user →
  viewerLatestReview pr ≫= state = None →
  (isDraft pr = false → ¬ containsWip (title pr) →
     ∃ b, createReviewBadge getURL pr user = Some b
          ∧ contains badgeClass b = true
          ∧ contains "rgh-review-status-needed" b = true
          ∧ ariaLabel b = Some "Review needed"
          ∧ indicator b = None)
  ∧ (containsWip (title pr) → createReviewBadge getURL pr user = None).
Proof.
  intros Hother Hstate. unfold createReviewBadge.
  rewrite isReadyToMerge_other by done.
  rewrite (strictEq_false _ _ Hother), Hstate. simpl.
  unfold needsReview. split.
  - intros -> Hwip. rewrite <- titleContainsWip_spec in Hwip.
    apply not_true_is_false in Hwip. rewrite Hwip. simpl.
    eexists. split; [reflexivity|]. by repeat split.
  - intros Hwip. apply titleContainsWip_spec in Hwip. rewrite Hwip.
    by rewrite !andb_false_r.
Qed.

(** The own-review branch: the badge of the viewer's last review, in the
    variant chosen by [hasNewCommits]. *)
Lemma createReviewBadge_reviewed (pr : PrData) (user : option string)
    (vr : ViewerReview) (s : ReviewState) :
  login <$> prAuthor pr ≠ user →
  viewerLatestReview pr = Some vr →
  state vr = Some s →
  s = APPROVED ∨ s = CHANGES_REQUESTED ∨ s = COMMENTED →
  let hasNewCommits :=
    hasNewCommitsAfterReview (oid <$> commit vr) (Some (headRefOid pr)) in
  ∃ b cfg, createReviewBadge getURL pr user = Some b
       ∧ getReviewIconConfig (Some s) hasNewCommits = Some cfg
       ∧ contains badgeClass b = true
       ∧ head (children b) = Some (icon cfg)
       ∧ ariaLabel b = Some (label cfg)
       ∧ contains "rgh-review-status-updated" b = hasNewCommits
       ∧ contains "rgh-review-status-reviewed" b = negb hasNewCommits
       ∧ indicator b
         = if hasNewCommits then Some "New commits since your review" else None.
Proof.
  intros Hother Hvr Hstate Hs hasNewCommits. unfold createReviewBadge.
  rewrite isReadyToMerge_other by done.
  rewrite (strictEq_false _ _ Hother), Hvr. simpl. rewrite Hstate.
  unfold needsReview. simpl. fold hasNewCommits.
  destruct Hs as [->|[->| ->]]; simpl;
    (eexists; eexists; split; [reflexivity|]; split; [reflexivity|];
     by destruct hasNewCommits).
Qed.

(** C4: on a pull request of somebody else whose last review by the viewer
    is APPROVED, CHANGES_REQUESTED or COMMENTED, the badge of that state
    is shown: the check icon and "You approved this PR", the x icon and
    "You requested changes on this PR", or the comment icon and "You
    commented on this PR"; it is the "updated" variant, with the label
    ending in "(new commits since review)" and the new-commits indicator,
    exactly when the head commit differs from the reviewed commit. *)
Theorem own_review_badge (pr : PrData) (user : option string)
    (vr : ViewerReview) (s : ReviewState) :
  login <$> prAuthor pr ≠ user →
  viewerLatestReview pr = Some vr →
  state vr = Some s →
  s = APPROVED ∨ s = CHANGES_REQUESTED ∨ s = COMMENTED →
  ∃ b, createReviewBadge getURL pr user = Some b
       ∧ contains badgeClass b = true
       ∧ (s = APPROVED →
            head (children b) = Some (jsx "CheckIcon" ["v-align-middle"] [] [])
            ∧ (headAdvanced vr pr →
                 ariaLabel b
                 = Some "You approved this PR (new commits since review)")
            ∧ (¬ headAdvanced vr pr →
                 ariaLabel b = Some "You approved this PR"))
       ∧ (s = CHANGES_REQUESTED →
            head (children b) = Some (jsx "XIcon" ["v-align-middle"] [] [])
            ∧ (headAdvanced vr pr →
                 ariaLabel b
                 = Some "You requested changes on this PR (new commits since review)")
            ∧ (¬ headAdvanced vr pr →
                 ariaLabel b = Some "You requested changes on this PR"))
       ∧ (s = COMMENTED →
            head (children b) = Some (jsx "CommentIcon" ["v-align-middle"] [] [])
            ∧ (headAdvanced vr pr →
                 ariaLabel b
                 = Some "You commented on this PR (new commits since review)")
            ∧ (¬ headAdvanced vr pr →
                 ariaLabel b = Some "You commented on this PR"))
       ∧ (headAdvanced vr pr →
            contains "rgh-review-status-updated" b = true
            ∧ contains "rgh-review-status-reviewed" b = false
            ∧ indicator b = Some "New commits since your review")
       ∧ (¬ headAdvanced vr pr →
            contains "rgh-review-status-updated" b = false
            ∧ contains "rgh-review-status-reviewed" b = true
            ∧ indicator b = None).
Proof.
  intros Hother Hvr Hstate Hs.
  destruct (createReviewBadge_reviewed pr user vr s)
    as (b & cfg & Hb & Hcfg & Hc & Hicon & Hlabel & Hup & Hrev & Hind); auto.
  exists b. split; [done|]. split; [done|].
  rewrite <- hasNewCommits_headAdvanced.
  rewrite Hicon, Hlabel, Hup, Hrev, Hind. clear Hicon Hlabel Hup Hrev Hind Hb.
  destruct (hasNewCommitsAfterReview _ _);
    (split; [|split; [|split; [|split]]]);
    try (intros ->; injection Hcfg as <-; split; [reflexivity|];
         split; intros H; [reflexivity || done | reflexivity || done]);
    intros H; by repeat split.
Qed.

(** C5, amended: a pull request of the viewer gets no badge when it is a
    draft, or when it has fewer than two distinct approvers and either
    there is no comment or request for changes among the latest reviews,
    or the first one was made on a commit that is present and differs
    from the head commit. *)
Theorem no_badge_on_own_pr (pr : PrData) (user : option string) :
  login <$> prAuthor pr = user →
  isDraft pr = true
  ∨ ((getApprovalCount (reviews pr) < 2)%nat
     ∧ (noFeedback pr ∨ feedbackOutdated pr)) →
  createReviewBadge getURL pr user = None.
Proof.
  intros Hme H. unfold createReviewBadge.
  rewrite createReviewBadge_not_ready by naive_solver.
  rewrite (strictEq_true _ _ Hme).
  destruct H as [->|[Hcount H]]; [done|].
  destruct (isDraft pr); [done|]. cbn [andb negb].
  destruct H as [[Hnone|(ns & Hns & Hall)]|(ns & r & c & Hns & Hr & Hc & H)].
  - unfold getLatestCommentOrChangesRequested. by rewrite Hnone.
  - unfold getLatestCommentOrChangesRequested.
    by rewrite Hns, firstCommentOrChangesRequested_None.
  - rewrite (getLatest_mostRecent pr ns r) by done. cbn [commitOid].
    assert (hasNewCommitsAfterReview (oid <$> latestCommit r)
              (Some (headRefOid pr)) = true) as ->; [|done].
    apply hasNewCommitsAfterReview_true. naive_solver.
Qed.

(** C9: [hasNewCommitsAfterReview] is true exactly when both commit ids
    are present (a missing or empty id is falsy) and differ, so it is
    false whenever one of them is missing.  With a missing commit id the
    feedback badge is shown on the viewer's pull request although no
    commit equals the head commit, and the badge of the viewer's own
    review takes the variant without the update mark. *)
Theorem missing_commit_means_no_new_commits :
  (∀ r h : option string,
     hasNewCommitsAfterReview r h = true
     ↔ ∃ a b, r = Some a ∧ h = Some b
              ∧ a ≠ EmptyString ∧ b ≠ EmptyString ∧ a ≠ b)
  ∧ (∀ r h : option string,
       r = None ∨ h = None → hasNewCommitsAfterReview r h = false)
  ∧ (∀ (pr : PrData) (user : option string) (ns : list LatestReviewNode)
       (review : LatestReviewNode),
       login <$> prAuthor pr = user →
       isDraft pr = false →
       (getApprovalCount (reviews pr) < 2)%nat →
       nodesOf (latestReviews pr) = Some ns →
       mostRecentFeedback ns review →
       latestCommit review = None →
       ∃ b, createReviewBadge getURL pr user = Some b
            ∧ contains "rgh-review-status-feedback" b = true)
  ∧ (∀ (pr : PrData) (user : option string) (vr : ViewerReview)
       (s : ReviewState),
       login <$> prAuthor pr ≠ user →
       viewerLatestReview pr = Some vr →
       state vr = Some s →
       s = APPROVED ∨ s = CHANGES_REQUESTED ∨ s = COMMENTED →
       commit vr = None →
       ∃ b, createReviewBadge getURL pr user = Some b
            ∧ contains "rgh-review-status-reviewed" b = true
            ∧ contains "rgh-review-status-updated" b = false
            ∧ indicator b = None).
Proof.
  split; [apply hasNewCommitsAfterReview_true|]. split; [|split].
  - intros r h H. apply not_true_is_false.
    rewrite hasNewCommitsAfterReview_true. naive_solver.
  - intros pr user ns review Hme Hdraft Hcount Hns Hr Hc.
    destruct (createReviewBadge_feedback pr user
                {| fbState := latestState review;
                   commitOid := oid <$> latestCommit review |})
      as (b & Hb & _ & Hf & _); auto.
    + by eapply getLatest_mostRecent.
    + by rewrite Hc.
    + by exists b.
  - intros pr user vr s Hother Hvr Hstate Hs Hc.
    destruct (createReviewBadge_reviewed pr user vr s)
      as (b & cfg & Hb & _ & _ & _ & _ & Hup & Hrev & Hind); auto.
    rewrite Hc in Hup, Hrev, Hind. by exists b.
Qed.

End ClassifierProperties.

(** ** The rules on the sample snapshots *)

Lemma ready_to_merge_badge_witness :
  ∃ b, createReviewBadge sampleGetURL sampleReady (Some "me") = Some b
       ∧ contains badgeClass b = true
       ∧ contains "rgh-review-status-to-merge" b = true
       ∧ (hasUnresolvedThread sampleReady →
            ariaLabel b
            = Some ("Ready to merge ("
                    +:+ numberToString (getApprovalCount (reviews sampleReady))
                    +:+ " approvals) - Open conversations")
            ∧ indicator b = Some "Open conversations")
       ∧ (¬ hasUnresolvedThread sampleReady →
            ariaLabel b
            = Some ("Ready to merge ("
                    +:+ numberToString (getApprovalCount (reviews sampleReady))
                    +:+ " approvals)")
            ∧ indicator b = None).
Proof.
  apply (ready_to_merge_badge sampleGetURL sampleReady (Some "me")).
  - reflexivity.
  - reflexivity.
  - vm_compute. lia.
Defined.

Example ready_to_merge_label :
  ariaLabel <$> createReviewBadge sampleGetURL sampleReady (Some "me")
  = Some (Some "Ready to merge (2 approvals) - Open conversations").
Proof. vm_compute. reflexivity. Qed.

(** Three approvals by two reviewers count as two. *)
Example approvals_counted_once : getApprovalCount (reviews sampleReady) = 2.
Proof. vm_compute. reflexivity. Qed.

Lemma getApprovalCount_distinct_approvers_witness :
  getApprovalCount
    (Some (Build_Connection
             (Some [approvalBy "alice"; approvalBy "bob"; approvalBy "alice"])))
  = getApprovalCount
      (Some (Build_Connection (Some [approvalBy "alice"; approvalBy "bob"]))).
Proof.
  destruct getApprovalCount_distinct_approvers as [Hnodes _].
  destruct (Hnodes [approvalBy "alice"; approvalBy "bob"]) as (_ & _ & Hagain & _).
  apply (Hagain (approvalBy "alice")).
  - reflexivity.
  - right. exists "alice". split; [|reflexivity]. vm_compute. by left.
Defined.

Example new_commits_examples :
  hasNewCommitsAfterReview (Some "abc") (Some "def") = true
  ∧ hasNewCommitsAfterReview (Some "def") (Some "def") = false
  ∧ hasNewCommitsAfterReview None (Some "def") = false
  ∧ hasNewCommitsAfterReview (Some "abc") None = false.
Proof. vm_compute. repeat split; reflexivity. Qed.

Lemma feedback_pending_badge_witness :
  ∃ b, createReviewBadge sampleGetURL sampleFeedback (Some "me") = Some b
       ∧ contains badgeClass b = true
       ∧ contains "rgh-review-status-feedback" b = true
       ∧ ("CHANGES_REQUESTED" = "CHANGES_REQUESTED" →
            ariaLabel b = Some "Changes requested on your PR")
       ∧ ("CHANGES_REQUESTED" = "COMMENTED" →
            ariaLabel b = Some "Comment on your PR").
Proof.
  apply (feedback_pending_badge sampleGetURL sampleFeedback (Some "me")
           [{| latestState := "APPROVED"; latestCommit := Some {| oid := "abc" |} |};
            {| latestState := "CHANGES_REQUESTED";
               latestCommit := Some {| oid := "def" |} |}]
           {| latestState := "CHANGES_REQUESTED";
              latestCommit := Some {| oid := "def" |} |}).
  - reflexivity.
  - reflexivity.
  - vm_compute. lia.
  - reflexivity.
  - exists [{| latestState := "APPROVED"; latestCommit := Some {| oid := "abc" |} |}], [].
    split; [reflexivity|]. split.
    + constructor; [|constructor]. intros [H|H]; discriminate H.
    + right. reflexivity.
  - reflexivity.
Defined.

Lemma not_containsWip_sample : ¬ containsWip "Add feature".
Proof.
  intros H. apply titleContainsWip_spec in H. vm_compute in H. discriminate H.
Defined.

Lemma review_needed_badge_witness :
  ∃ b, createReviewBadge sampleGetURL (sampleOther "Add feature" None) (Some "me")
       = Some b
       ∧ contains badgeClass b = true
       ∧ contains "rgh-review-status-needed" b = true
       ∧ ariaLabel b = Some "Review needed"
       ∧ indicator b = None.
Proof.
  destruct (review_needed_badge sampleGetURL (sampleOther "Add feature" None)
              (Some "me")) as [Hneeded _].
  - intros H. discriminate H.
  - reflexivity.
  - apply Hneeded; [reflexivity | exact not_containsWip_sample].
Defined.

(** The example of the specification: "WIP: add feature" gets no badge. *)
Example wip_title_no_badge :
  createReviewBadge sampleGetURL (sampleOther "WIP: add feature" None) (Some "me")
  = None.
Proof. vm_compute. reflexivity. Qed.

Example plain_title_review_needed :
  ariaLabel
    <$> createReviewBadge sampleGetURL (sampleOther "Add feature" None) (Some "me")
  = Some (Some "Review needed").
Proof. vm_compute. reflexivity. Qed.

Lemma own_review_badge_witness :
  ∃ b, createReviewBadge sampleGetURL
         (sampleOther "Add feature" (Some (sampleApprovedOn "abc"))) (Some "me")
       = Some b
       ∧ head (children b) = Some (jsx "CheckIcon" ["v-align-middle"] [] [])
       ∧ ariaLabel b = Some "You approved this PR (new commits since review)"
       ∧ contains "rgh-review-status-updated" b = true
       ∧ indicator b = Some "New commits since your review".
Proof.
  assert (headAdvanced (sampleApprovedOn "abc")
            (sampleOther "Add feature" (Some (sampleApprovedOn "abc")))) as Hnew.
  { exists "abc". repeat split; intros H; discriminate H. }
  destruct (own_review_badge sampleGetURL
              (sampleOther "Add feature" (Some (sampleApprovedOn "abc")))
              (Some "me") (sampleApprovedOn "abc") APPROVED)
    as (b & Hb & _ & Happroved & _ & _ & Hadv & _).
  - intros H. discriminate H.
  - reflexivity.
  - reflexivity.
  - left. reflexivity.
  - exists b. split; [exact Hb|].
    destruct (Happroved eq_refl) as (Hicon & Hlabel & _).
    destruct (Hadv Hnew) as (Hup & _ & Hind).
    split; [exact Hicon|]. split; [exact (Hlabel Hnew)|]. by split.
Defined.

(** C5 as stated fails: the viewer's pull request below is not a draft, has
    no approval, and its only comment carries no commit, so no comment or
    request for changes was made on the head commit; yet the feedback badge
    is shown. *)
Lemma no_badge_on_own_pr_counterexample :
  login <$> prAuthor sampleCommentNoCommit = Some "me"
  ∧ isDraft sampleCommentNoCommit = false
  ∧ (getApprovalCount (reviews sampleCommentNoCommit) < 2)%nat
  ∧ ¬ feedbackOnHead sampleCommentNoCommit
  ∧ ∃ b, createReviewBadge sampleGetURL sampleCommentNoCommit (Some "me") = Some b
         ∧ contains "rgh-review-status-feedback" b = true.
Proof.
  split; [reflexivity|]. split; [reflexivity|]. split; [vm_compute; lia|]. split.
  - intros (ns & r & [= <-] & (pre & post & Hns & _ & _) & Hoid).
    destruct pre as [|x [|y pre]]; simplify_eq/=.
  - eexists. split; reflexivity.
Qed.

Lemma no_badge_on_own_pr_witness :
  createReviewBadge sampleGetURL sampleOutdatedComment (Some "me") = None.
Proof.
  apply (no_badge_on_own_pr sampleGetURL sampleOutdatedComment (Some "me")).
  - reflexivity.
  - right. split; [vm_compute; lia|]. right.
    exists [{| latestState := "COMMENTED"; latestCommit := Some {| oid := "abc" |} |}],
           {| latestState := "COMMENTED"; latestCommit := Some {| oid := "abc" |} |},
           "abc".
    split; [reflexivity|]. split.
    + exists [], []. split; [reflexivity|]. split; [constructor|]. left. reflexivity.
    + split; [reflexivity|]. repeat split; intros H; discriminate H.
Defined.

Lemma missing_commit_means_no_new_commits_witness :
  hasNewCommitsAfterReview None (Some "def") = false
  ∧ ∃ b, createReviewBadge sampleGetURL sampleCommentNoCommit (Some "me") = Some b
         ∧ contains "rgh-review-status-feedback" b = true.
Proof.
  destruct (missing_commit_means_no_new_commits sampleGetURL)
    as (_ & Habsent & Hfb & _).
  split.
  - apply Habsent. left. reflexivity.
  - apply (Hfb sampleCommentNoCommit (Some "me")
             [{| latestState := "COMMENTED"; latestCommit := None |}]
             {| latestState := "COMMENTED"; latestCommit := None |}).
    + reflexivity.
    + reflexivity.
    + vm_compute. lia.
    + reflexivity.
    + exists [], []. split; [reflexivity|]. split; [constructor|]. left. reflexivity.
    + reflexivity.
Defined.


(** ** Walks and insertion *)

Ltac fields := cbn [children handle classList pathname tag attributes] in *.

Lemma getElement_unfold (h : nat) (e : Element) :
  getElement h e
  = if decide (handle e = Some h) then Some e
    else firstJust (getElement h) (children e).
Proof. by destruct e. Qed.

Lemma closestIn_unfold (c : string) (h : nat) (e : Element) :
  closestIn c h e
  = if decide (handle e = Some h)
    then Some (if contains c e then Some e else None)
    else match firstJust (closestIn c h) (children e) with
         | Some (Some r) => Some (Some r)
         | Some None => Some (if contains c e then Some e else None)
         | None => None
         end.
Proof. by destruct e. Qed.

Lemma nextIn_unfold (h : nat) (e : Element) :
  nextIn h e = nextAmong h (nextIn h) (children e).
Proof. by destruct e. Qed.

Lemma afterIn_Some (h : nat) (b e e' : Element) :
  afterIn h b e = Some e'
  ↔ ∃ kids', insertAmong h b (afterIn h b) (children e) = Some kids'
             ∧ e' = Elem (handle e) (tag e) (classList e) (attributes e)
                         (pathname e) kids'.
Proof.
  destruct e as [eh t c a p kids]. simpl.
  destruct (insertAmong _ _ _ _) as [kids'|]; simpl; naive_solver.
Qed.

Lemma afterIn_None (h : nat) (b e : Element) :
  afterIn h b e = None
  ↔ insertAmong h b (afterIn h b) (children e) = None.
Proof.
  destruct e as [eh t c a p kids]. simpl.
  destruct (insertAmong _ _ _ _) as [kids'|]; simpl; naive_solver.
Qed.

Lemma afterIn_root (h : nat) (b e e' : Element) :
  afterIn h b e = Some e' →
  handle e' = handle e ∧ classList e' = classList e ∧ pathname e' = pathname e.
Proof. intros (kids' & _ & ->)%afterIn_Some. done. Qed.

Lemma afterIn_contains (h : nat) (b e e' : Element) (c : string) :
  afterIn h b e = Some e' → contains c e' = contains c e.
Proof. intros (_ & H & _)%afterIn_root. unfold contains. by rewrite H. Qed.

Lemma firstJust_None {A B} (f : A → option B) (l : list A) :
  firstJust f l = None ↔ Forall (λ x, f x = None) l.
Proof.
  induction l as [|x l IH]; simpl.
  - split; [constructor|done].
  - rewrite Forall_cons. destruct (f x); naive_solver.
Qed.

Lemma getElement_None (h : nat) (e : Element) :
  getElement h e = None
  ↔ handle e ≠ Some h ∧ Forall (λ k, getElement h k = None) (children e).
Proof.
  rewrite getElement_unfold. destruct (decide _) as [Heq|Hne].
  - naive_solver.
  - rewrite firstJust_None. naive_solver.
Qed.

Lemma inert_getElement (h : nat) (b : Element) :
  inert b = true → getElement h b = None.
Proof.
  induction b as [bh t c a p kids IH] using Element_tree_ind.
  intros H. simpl in H. apply andb_true_iff in H as [Hh Hk].
  apply bool_decide_eq_true in Hh.
  apply getElement_None. split; [simpl; congruence|]. simpl.
  rewrite forallb_forall in Hk. rewrite Forall_forall in IH |- *.
  intros k Hin. apply IH; [done|]. apply Hk. by apply list_elem_of_In.
Qed.

Lemma absent_closestIn (c : string) (h : nat) (e : Element) :
  getElement h e = None → closestIn c h e = None.
Proof.
  induction e as [eh t cl a p kids IH] using Element_tree_ind.
  intros [Hh Hk]%getElement_None. rewrite closestIn_unfold. fields.
  destruct (decide _); [done|].
  assert (firstJust (closestIn c h) kids = None) as ->; [|done].
  apply firstJust_None. simpl in Hk.
  induction IH as [|k kids Hk1 _ IHk]; [constructor|].
  apply Forall_cons in Hk as [??]. constructor; auto.
Qed.

Lemma absent_nextIn (h : nat) (e : Element) :
  getElement h e = None → nextIn h e = None.
Proof.
  induction e as [eh t cl a p kids IH] using Element_tree_ind.
  intros [_ Hk]%getElement_None. rewrite nextIn_unfold. fields.
  induction IH as [|k kids Hk1 _ IHk]; [done|].
  apply Forall_cons in Hk as [Hk0 Hk]. simpl.
  apply getElement_None in Hk0 as Hk0'. destruct Hk0' as [Hne _].
  destruct (decide _); [done|]. rewrite Hk1 by done. auto.
Qed.


Lemma option_Forall2_same {X} (R : X → X → Prop) (o : option X) :
  (∀ x, R x x) → option_Forall2 R o o.
Proof. intros H. destruct o; constructor; auto. Qed.

Section Insertion.

(** An element [b] without handles is put after the element [h']. *)
Variables (h' : nat) (b : Element).
Hypothesis b_inert : inert b = true.

(** [r'] is [r], or [r] with [b] put inside. *)
Definition sameOrInserted (r r' : Element) : Prop :=
  r' = r ∨ afterIn h' b r = Some r'.

Lemma firstJust_insertAmong {X} (f : Element → option X) (R : X → X → Prop)
    (kids kids' : list Element) :
  (∀ x, R x x) → f b = None →
  Forall (λ k, ∀ k', afterIn h' b k = Some k' → option_Forall2 R (f k) (f k')) kids →
  insertAmong h' b (afterIn h' b) kids = Some kids' →
  option_Forall2 R (firstJust f kids) (firstJust f kids').
Proof.
  intros Hrefl Hb IH. revert kids'.
  induction IH as [|k rest Hk _ IHrest]; intros kids' H; simpl in H; [done|].
  destruct (decide (handle k = Some h')).
  - injection H as <-. simpl. destruct (f k); [by constructor|].
    rewrite Hb. by apply option_Forall2_same.
  - destruct (afterIn h' b k) as [k'|] eqn:Ek.
    + injection H as <-. simpl. specialize (Hk k' eq_refl).
      destruct Hk; [by constructor|]. by apply option_Forall2_same.
    + destruct (insertAmong _ _ _ rest) as [rest'|]; [|done].
      injection H as <-. simpl. destruct (f k); [by constructor|]. by apply IHrest.
Qed.


Lemma closestIn_afterIn (c : string) (h : nat) (e e' : Element) :
  afterIn h' b e = Some e' →
  option_Forall2 (option_Forall2 sameOrInserted)
    (closestIn c h e) (closestIn c h e').
Proof.
  revert e'. induction e as [eh t cl a p kids IH] using Element_tree_ind.
  intros e' H. pose proof H as (kids' & Hk & ->)%afterIn_Some.
  assert (Hself : option_Forall2 (option_Forall2 sameOrInserted)
            (Some (if contains c (Elem eh t cl a p kids)
                   then Some (Elem eh t cl a p kids) else None))
            (Some (if contains c (Elem eh t cl a p kids')
                   then Some (Elem eh t cl a p kids') else None))).
  { constructor. unfold contains. fields. destruct (existsb _ _); constructor.
    by right. }
  rewrite !closestIn_unfold. fields. destruct (decide _); [done|].
  pose proof (firstJust_insertAmong (closestIn c h)
                (option_Forall2 sameOrInserted) kids kids') as Hfirst.
  destruct Hfirst as [x x' Hx|]; auto.
  - intros x. apply option_Forall2_same. by left.
  - apply absent_closestIn. by apply inert_getElement.
  - destruct Hx; [do 2 constructor; done | exact Hself].
  - constructor.
Qed.

Lemma insertAmong_head (below : Element → option Element)
    (kids kids' : list Element) :
  (∀ k k', below k = Some k' → afterIn h' b k = Some k') →
  insertAmong h' b below kids = Some kids' →
  ∃ k k', head kids = Some k ∧ head kids' = Some k' ∧ sameOrInserted k k'.
Proof.
  intros Hbelow H. destruct kids as [|k rest]; simpl in H; [done|].
  destruct (decide _).
  - injection H as <-. exists k, k. by repeat split; try left.
  - destruct (below k) as [k'|] eqn:Ek.
    + injection H as <-. exists k, k'. repeat split. right. auto.
    + destruct (insertAmong _ _ _ rest); [|done]. injection H as <-.
      exists k, k. by repeat split; try left.
Qed.

(** How the sibling after [h] changes: it stays, it is [b], or [b] was put
    inside it. *)
Definition siblingAfter (o o' : option Element) : Prop :=
  match o with
  | Some s => ∃ s', o' = Some s' ∧ (s' = b ∨ sameOrInserted s s')
  | None => o' = None ∨ o' = Some b
  end.

Lemma siblingAfter_same (o : option Element) : siblingAfter o o.
Proof. destruct o as [s|]; simpl; [|by left]. exists s. split; [done|]. right. by left. Qed.

Lemma nextAmong_insertAmong (h : nat) (kids kids' : list Element) :
  Forall (λ k, ∀ k', afterIn h' b k = Some k' →
               option_Forall2 siblingAfter (nextIn h k) (nextIn h k')) kids →
  insertAmong h' b (afterIn h' b) kids = Some kids' →
  option_Forall2 siblingAfter
    (nextAmong h (nextIn h) kids) (nextAmong h (nextIn h) kids').
Proof.
  intros IH. revert kids'.
  induction IH as [|k rest Hk _ IHrest]; intros kids' H; simpl in H; [done|].
  assert (Hb : handle b ≠ Some h ∧ nextIn h b = None).
  { split; [|by apply absent_nextIn, inert_getElement].
    by apply (getElement_None h b), inert_getElement. }
  destruct Hb as [Hbh Hbn].
  destruct (decide (handle k = Some h')) as [Hk'|Hk'].
  - injection H as <-. simpl. destruct (decide (handle k = Some h)).
    + constructor. destruct rest as [|s rest]; simpl; [by right|].
      exists b. by split; [|left].
    + destruct (nextIn h k); [apply option_Forall2_same, siblingAfter_same|].
      destruct (decide (handle b = Some h)); [done|]. rewrite Hbn.
      apply option_Forall2_same, siblingAfter_same.
  - destruct (afterIn h' b k) as [k'|] eqn:Ek.
    + injection H as <-. simpl.
      destruct (afterIn_root _ _ _ _ Ek) as (-> & _).
      destruct (decide (handle k = Some h)).
      * apply option_Forall2_same, siblingAfter_same.
      * destruct (Hk k' eq_refl); [by constructor|].
        apply option_Forall2_same, siblingAfter_same.
    + destruct (insertAmong _ _ _ rest) as [rest'|] eqn:Er; [|done].
      injection H as <-. simpl. destruct (decide (handle k = Some h)).
      * constructor.
        destruct (insertAmong_head _ rest rest' (λ _ _ H, H) Er)
          as (s & s' & -> & -> & Hs).
        exists s'. split; [done|]. by right.
      * destruct (nextIn h k); [apply option_Forall2_same, siblingAfter_same|].
        by apply IHrest.
Qed.

Lemma nextIn_afterIn (h : nat) (e e' : Element) :
  afterIn h' b e = Some e' →
  option_Forall2 siblingAfter (nextIn h e) (nextIn h e').
Proof.
  revert e'. induction e as [eh t cl a p kids IH] using Element_tree_ind.
  intros e' H. pose proof H as (kids' & Hk & ->)%afterIn_Some.
  rewrite !nextIn_unfold. fields. by apply nextAmong_insertAmong.
Qed.

End Insertion.

Lemma detached_afterIn (h : nat) (b e : Element) :
  afterIn h b e = None ↔ nextIn h e = None.
Proof.
  induction e as [eh t cl a p kids IH] using Element_tree_ind.
  rewrite afterIn_None, nextIn_unfold. fields.
  induction IH as [|k rest Hk _ IHrest]; simpl; [done|].
  destruct (decide _); [done|].
  destruct (afterIn h b k), (nextIn h k); try done; try naive_solver.
  destruct (insertAmong _ _ _ rest); simpl; naive_solver.
Qed.

Lemma nextIn_None_absent (h : nat) (e : Element) :
  nextIn h e = None → handle e ≠ Some h → getElement h e = None.
Proof.
  induction e as [eh t cl a p kids IH] using Element_tree_ind.
  rewrite nextIn_unfold, getElement_None. fields. intros H Hne.
  split; [done|].
  induction IH as [|k rest Hk _ IHrest]; [constructor|]. simpl in H.
  destruct (decide _); [done|]. destruct (nextIn h k); [done|].
  constructor; auto.
Qed.

Lemma nextIn_after_self (h : nat) (b e e' : Element) :
  afterIn h b e = Some e' → nextIn h e' = Some (Some b).
Proof.
  revert e'. induction e as [eh t cl a p kids IH] using Element_tree_ind.
  intros e' (kids' & Hk & ->)%afterIn_Some. rewrite nextIn_unfold. fields.
  revert kids' Hk.
  induction IH as [|k rest Hk _ IHrest]; intros kids' H; simpl in H; [done|].
  destruct (decide (handle k = Some h)) as [Hh|Hh].
  - injection H as <-. simpl. by rewrite decide_True.
  - destruct (afterIn h b k) as [k'|] eqn:Ek.
    + injection H as <-. simpl.
      destruct (afterIn_root _ _ _ _ Ek) as (Hr & _).
      rewrite decide_False by congruence. by rewrite (Hk k').
    + destruct (insertAmong _ _ _ rest) as [rest'|]; [|done].
      injection H as <-. simpl. rewrite decide_False by done.
      apply detached_afterIn in Ek. rewrite Ek. by apply IHrest.
Qed.

(** The number of elements of class [c] in a list. *)
Definition countClass (c : string) (l : list Element) : nat :=
  length (filter (λ x, contains c x = true) l).

Lemma countClass_app (c : string) (l1 l2 : list Element) :
  countClass c (l1 ++ l2)%list = (countClass c l1 + countClass c l2)%nat.
Proof. unfold countClass. by rewrite filter_app, length_app. Qed.

Lemma countClass_cons (c : string) (x : Element) (l : list Element) :
  countClass c (x :: l)
  = ((if contains c x then 1 else 0) + countClass c l)%nat.
Proof.
  unfold countClass. rewrite filter_cons.
  destruct (contains c x); by case_decide.
Qed.

Lemma descendants_unfold (e : Element) :
  descendants e = flat_map (λ k, k :: descendants k) (children e).
Proof. by destruct e. Qed.

Lemma countClass_afterIn (c : string) (h : nat) (b e e' : Element) :
  afterIn h b e = Some e' →
  countClass c (descendants e')
  = (countClass c (descendants e) + countClass c (b :: descendants b))%nat.
Proof.
  revert e'. induction e as [eh t cl a p kids IH] using Element_tree_ind.
  intros e' (kids' & Hk & ->)%afterIn_Some.
  rewrite !(descendants_unfold (Elem _ _ _ _ _ _)). fields.
  revert kids' Hk.
  induction IH as [|k rest Hk _ IHrest]; intros kids' H; simpl in H; [done|].
  destruct (decide (handle k = Some h)) as [Hh|Hh].
  - injection H as <-. cbn [flat_map].
    rewrite !countClass_app. lia.
  - destruct (afterIn h b k) as [k'|] eqn:Ek.
    + injection H as <-. cbn [flat_map].
      rewrite !countClass_app, !(countClass_cons c k'), !(countClass_cons c k).
      rewrite (Hk k' eq_refl), (afterIn_contains _ _ _ _ c Ek). lia.
    + destruct (insertAmong _ _ _ rest) as [rest'|]; [|done].
      injection H as <-. cbn [flat_map].
      rewrite !countClass_app, (IHrest rest' eq_refl). lia.
Qed.






(** ** Badges in the document *)

(** What the routine inserts: an element of the badge class without
    handles and without further badges inside. *)
Definition isBadge (b : Element) : Prop :=
  inert b = true ∧ contains badgeClass b = true
  ∧ countClass badgeClass (descendants b) = 0.

(** [doc'] is [doc] with one badge put after some link. *)
Definition inserted (doc doc' : Element) : Prop :=
  ∃ h b, isBadge b ∧ afterIn h b doc = Some doc'.

(** The link has no parent: it is the root, or it is not in the document. *)
Definition detached (h : nat) (doc : Element) : Prop :=
  handle doc = Some h ∨ nextIn h doc = None.

(** The number of badges in the row of a link. *)
Definition rowBadges (h : nat) (doc : Element) : nat :=
  match closest rowClass h doc with
  | Some row => length (querySelectorAll badgeClass row)
  | None => 0
  end.

Lemma createReviewBadge_isBadge (getURL : string → string) (pr : PrData)
    (user : option string) (b : Element) :
  createReviewBadge getURL pr user = Some b → isBadge b.
Proof.
  unfold createReviewBadge, getReviewIconConfig.
  repeat case_match; intros [= <-]; simplify_eq; by repeat split.
Qed.


Lemma after_detached (h : nat) (b doc : Element) :
  detached h doc → after h b doc = doc.
Proof.
  intros [H|H]; unfold after.
  - by rewrite decide_True.
  - destruct (decide _); [done|]. apply (detached_afterIn h b) in H. by rewrite H.
Qed.

Lemma closest_inserted (c : string) (h h' : nat) (b doc doc' : Element) :
  inert b = true → afterIn h' b doc = Some doc' →
  option_Forall2 (sameOrInserted h' b) (closest c h doc) (closest c h doc').
Proof.
  intros Hb H. unfold closest.
  destruct (closestIn_afterIn h' b Hb c h doc doc' H) as [x y Hxy|]; simpl;
    [done|constructor].
Qed.

Lemma closest_inserted_Some (c : string) (h h' : nat) (b doc doc' row : Element) :
  inert b = true → afterIn h' b doc = Some doc' →
  closest c h doc = Some row →
  ∃ row', closest c h doc' = Some row' ∧ sameOrInserted h' b row row'.
Proof.
  intros Hb H Hrow.
  pose proof (closest_inserted c h h' b doc doc' Hb H) as Hcl.
  rewrite Hrow in Hcl. inversion Hcl as [r row' Hrr|]; subst. by exists row'.
Qed.




Lemma sameOrInserted_contains (c : string) (h' : nat) (b r r' : Element) :
  sameOrInserted h' b r r' → contains c r' = contains c r.
Proof. intros [->|H]; [done|]. by apply (afterIn_contains _ _ _ _ c) in H. Qed.




Lemma badgeFollows_inserted (h : nat) (doc doc' : Element) :
  inserted doc doc' → badgeFollows h doc = true → badgeFollows h doc' = true.
Proof.
  intros (h' & b & (Hb & Hc & _) & H). unfold badgeFollows, nextElementSibling.
  destruct (afterIn_root _ _ _ _ H) as (-> & _).
  destruct (decide _); [done|].
  destruct (nextIn_afterIn h' b Hb h doc doc' H) as [o o' Ho|]; simpl; [|done].
  destruct o as [s|]; simpl in *; [|done].
  destruct Ho as (s' & -> & [->|Hs]); simpl; [by rewrite Hc|].
  by rewrite (sameOrInserted_contains _ _ _ _ _ Hs).
Qed.

Lemma detached_inserted (h : nat) (doc doc' : Element) :
  inserted doc doc' → detached h doc → detached h doc'.
Proof.
  intros (h' & b & (Hb & _) & H) [Hd|Hd].
  - left. by destruct (afterIn_root _ _ _ _ H) as (-> & _).
  - right. destruct (nextIn_afterIn h' b Hb h doc doc' H); [congruence|done].
Qed.

Lemma badgeFollows_after (h : nat) (b doc doc' : Element) :
  contains badgeClass b = true → handle doc ≠ Some h →
  afterIn h b doc = Some doc' → badgeFollows h doc' = true.
Proof.
  intros Hc Hne H. unfold badgeFollows, nextElementSibling.
  destruct (afterIn_root _ _ _ _ H) as (-> & _).
  rewrite decide_False by done.
  by rewrite (nextIn_after_self h b doc doc' H).
Qed.

(** ** The loop *)

Section RoutineProperties.

Variable getURL : string → string.
Variable escapeKey : option string → option string → option string → string.
Variable JsNumber : Type.
Variable Number : option string → JsNumber.
Variable numberText : JsNumber → string.
Variable v4 : string → option (gmap string (option Repository)).
Variable loggedInUser : option string.

Implicit Types (data : gmap string (option Repository)) (pr : PrConfig JsNumber).
Implicit Types (doc d : Element) (links : list nat).

(** Running the turn of [pr] once more changes nothing: there is no data
    or no badge for it, a badge follows the link, or the link has no
    parent. *)
Definition settled data pr d : Prop :=
  lookupPr data pr = None
  ∨ (∃ prData, lookupPr data pr = Some prData
               ∧ createReviewBadge getURL prData loggedInUser = None)
  ∨ badgeFollows (link pr) d = true
  ∨ detached (link pr) d.

Lemma annotateOne_cases data d pr :
  annotateOne getURL loggedInUser data d pr = d
  ∨ ∃ b, isBadge b ∧ badgeFollows (link pr) d = false
         ∧ handle d ≠ Some (link pr)
         ∧ afterIn (link pr) b d = Some (annotateOne getURL loggedInUser data d pr).
Proof.
  unfold annotateOne. destruct (lookupPr data pr) as [prData|]; [|by left].
  destruct (badgeFollows _ _) eqn:Hf; [by left|].
  destruct (createReviewBadge _ _ _) as [b|] eqn:Hb; [|by left].
  unfold after. destruct (decide _); [by left|].
  destruct (afterIn (link pr) b d) as [d'|] eqn:Hd; [|by left].
  right. exists b. split; [by eapply createReviewBadge_isBadge|done].
Qed.

Lemma annotateOne_inserted data d pr :
  annotateOne getURL loggedInUser data d pr = d
  ∨ inserted d (annotateOne getURL loggedInUser data d pr).
Proof.
  destruct (annotateOne_cases data d pr) as [?|(b & ? & _ & _ & ?)]; [by left|].
  right. by exists (link pr), b.
Qed.

(** What one insertion keeps, the loop keeps. *)
Lemma annotate_preserves (P : Element → Prop) data (prs : list (PrConfig JsNumber)) d :
  (∀ x y, inserted x y → P x → P y) →
  P d → P (annotate getURL loggedInUser data prs d).
Proof.
  intros Hstep. revert d. induction prs as [|pr prs IH]; intros d Hd; [done|].
  simpl. apply IH.
  destruct (annotateOne_inserted data d pr) as [->|?]; eauto.
Qed.

Lemma settled_annotateOne data pr d :
  settled data pr d → annotateOne getURL loggedInUser data d pr = d.
Proof.
  unfold annotateOne. intros [->|[(prData & -> & Hnone)|[Hf|Hd]]]; [done|..].
  - rewrite Hnone. by destruct (badgeFollows _ _).
  - destruct (lookupPr data pr); [|done]. by rewrite Hf.
  - destruct (lookupPr data pr); [|done]. destruct (badgeFollows _ _); [done|].
    destruct (createReviewBadge _ _ _); [|done]. by apply after_detached.
Qed.

Lemma settled_after_turn data pr d :
  settled data pr (annotateOne getURL loggedInUser data d pr).
Proof.
  destruct (annotateOne_cases data d pr) as [Heq|(b & (_ & Hc & _) & _ & Hne & Hd)].
  - rewrite Heq. unfold annotateOne in Heq. unfold settled.
    destruct (lookupPr data pr) as [prData|]; [|by left].
    destruct (badgeFollows _ _) eqn:Hf; [by right; right; left|].
    destruct (createReviewBadge _ _ _) as [b|] eqn:Hb; [|right; left; eauto].
    right. right. right. unfold after in Heq. unfold detached.
    destruct (decide _); [by left|]. right.
    destruct (afterIn (link pr) b d) as [d'|] eqn:Hd.
    + simpl in Heq. subst d'. apply nextIn_after_self in Hd as Hn.
      unfold badgeFollows, nextElementSibling in Hf.
      rewrite decide_False, Hn in Hf by done. simpl in Hf.
      apply createReviewBadge_isBadge in Hb as (_ & Hc & _). congruence.
    + by apply detached_afterIn in Hd.
  - right. right. left. by eapply badgeFollows_after.
Qed.

Lemma settled_inserted data pr d d' :
  inserted d d' → settled data pr d → settled data pr d'.
Proof.
  intros Hi [?|[?|[?|?]]]; unfold settled; eauto using badgeFollows_inserted,
    detached_inserted.
Qed.

Lemma settled_annotate data (prs : list (PrConfig JsNumber)) d pr :
  pr ∈ prs → settled data pr (annotate getURL loggedInUser data prs d).
Proof.
  revert d. induction prs as [|x prs IH]; intros d Hin.
  - by apply elem_of_nil in Hin.
  - simpl. apply elem_of_cons in Hin as [->|Hin]; [|by apply IH].
    apply annotate_preserves.
    + intros ???. by apply settled_inserted.
    + apply settled_after_turn.
Qed.




Lemma elem_of_collect links doc pr :
  pr ∈ collect escapeKey Number links doc
  ↔ ∃ h, h ∈ links ∧ notYetProcessed doc h = true
         ∧ pr = toPrConfig escapeKey Number doc h.
Proof.
  unfold collect. rewrite list_elem_of_In, in_map_iff.
  setoid_rewrite filter_In. setoid_rewrite <- list_elem_of_In. naive_solver.
Qed.




(** *** At most one badge in a row *)


Section Rows.

Variables (links : list nat) (doc : Element) (h : nat) (row0 : Element).
Hypothesis h_row : closest rowClass h doc = Some row0.




End Rows.






(** *** The routine *)



Local Notation "'run'" :=
  (addReviewStatus getURL escapeKey Number numberText v4 loggedInUser).

Lemma addReviewStatus_document links w :
  document (run links w).2 = document w
  ∨ ∃ data, v4 (batchQuery numberText (collect escapeKey Number links (document w)))
            = Some data
            ∧ document (run links w).2
              = annotate getURL loggedInUser data
                  (collect escapeKey Number links (document w)) (document w).
Proof.
  unfold addReviewStatus.
  destruct (collect _ _ _ _) as [|pr prs]; [by left|].
  destruct (v4 _) as [data|]; [|by left]. right. by exists data.
Qed.

Lemma addReviewStatus_answered links w data :
  v4 (batchQuery numberText (collect escapeKey Number links (document w))) = Some data →
  document (run links w).2
  = annotate getURL loggedInUser data
      (collect escapeKey Number links (document w)) (document w).
Proof.
  unfold addReviewStatus. intros Hdata.
  destruct (collect _ _ _ _) as [|pr prs]; [done|]. by rewrite Hdata.
Qed.




(** C7: a pull request whose entry is missing from the response, is null,
    or has a null pull request is skipped: its turn leaves the document as
    it is, the routine resolves, and the rows before and after it in the
    batch are annotated as if it were not there. *)
Theorem missing_data_skips_row links w data
    (before behind : list (PrConfig JsNumber)) pr :
  collect escapeKey Number links (document w) = (before ++ pr :: behind)%list →
  v4 (batchQuery numberText (collect escapeKey Number links (document w)))
  = Some data →
  data !! key pr = None ∨ data !! key pr = Some None
  ∨ data !! key pr = Some (Some {| pullRequest := None |}) →
  (∀ d, annotateOne getURL loggedInUser data d pr = d)
  ∧ run links w
    = (Resolved,
       {| document :=
            annotate getURL loggedInUser data behind
              (annotate getURL loggedInUser data before (document w));
          requests :=
            (requests w
             ++ [batchQuery numberText
                   (collect escapeKey Number links (document w))])%list |}).
Proof.
  intros Hprs Hdata Hmissing.
  assert (Hskip : ∀ d, annotateOne getURL loggedInUser data d pr = d).
  { intros d. apply settled_annotateOne. left. unfold lookupPr.
    by destruct Hmissing as [->|[->| ->]]. }
  split; [done|]. unfold addReviewStatus. rewrite Hdata.
  destruct (collect _ _ _ _) as [|x prs] eqn:E.
  { by destruct before. }
  rewrite Hprs. do 2 f_equal. unfold annotate.
  rewrite foldl_app. simpl. by rewrite Hskip.
Qed.

(** C8: when every observed link lies in a row that holds a badge (also
    when no link was observed), the routine resolves at once: nothing is
    sent and the document is as it was. *)
Theorem nothing_to_annotate links w :
  (∀ h, h ∈ links →
     ∃ row, closest rowClass h (document w) = Some row
            ∧ is_Some (querySelector badgeClass row)) →
  run links w = (Resolved, w)
  ∧ requests (run links w).2 = requests w
  ∧ document (run links w).2 = document w.
Proof.
  intros Hall.
  assert (collect escapeKey Number links (document w) = []) as Hnone.
  { unfold collect.
    assert (List.filter (notYetProcessed (document w)) links = []) as ->; [|done].
    induction links as [|h rest IH]; [done|]. simpl.
    destruct (Hall h) as (row & Hrow & Hbadge); [by left|].
    unfold notYetProcessed at 1. rewrite Hrow, bool_decide_eq_true_2 by done.
    simpl. apply IH. intros h' Hin. apply Hall. by right. }
  unfold addReviewStatus. by rewrite Hnone.
Qed.

(** With a link left to annotate, the request is sent. *)
Lemma addReviewStatus_sends links w h :
  h ∈ links → notYetProcessed (document w) h = true →
  requests (run links w).2
  = (requests w
     ++ [batchQuery numberText (collect escapeKey Number links (document w))])%list.
Proof.
  intros Hin Hkeep.
  assert (toPrConfig escapeKey Number (document w) h
          ∈ collect escapeKey Number links (document w)) as Hpr.
  { apply elem_of_collect. by exists h. }
  unfold addReviewStatus.
  destruct (collect _ _ _ _) as [|pr prs]; [by apply elem_of_nil in Hpr|].
  by destruct (v4 _).
Qed.

End RoutineProperties.

(** ** The routine on the sample page *)



Lemma missing_data_skips_row_witness :
  (sampleRun [2; 1] {| document := samplePage; requests := [] |}).1 = Resolved
  ∧ rowBadges 2
      (document (sampleRun [2; 1] {| document := samplePage; requests := [] |}).2)
    = 0
  ∧ rowBadges 1
      (document (sampleRun [2; 1] {| document := samplePage; requests := [] |}).2)
    = 1.
Proof.
  destruct (missing_data_skips_row sampleGetURL sampleEscapeKey (option string)
              (λ s : option string, s) interpolate sampleV4 (Some "me") [2; 1]
              {| document := samplePage; requests := [] |} sampleData
              []
              [toPrConfig sampleEscapeKey (λ s : option string, s) samplePage 1]
              (toPrConfig sampleEscapeKey (λ s : option string, s) samplePage 2))
    as [_ Hrun].
  - reflexivity.
  - reflexivity.
  - left. vm_compute. reflexivity.
  - unfold sampleRun. rewrite Hrun. vm_compute. repeat split; reflexivity.
Defined.

Lemma nothing_to_annotate_witness :
  sampleRun [1] {| document := sampleBadgedPage; requests := [] |}
  = (Resolved, {| document := sampleBadgedPage; requests := [] |}).
Proof.
  apply (nothing_to_annotate sampleGetURL sampleEscapeKey (option string) (λ s : option string, s)
           interpolate sampleV4 (Some "me") [1]
           {| document := sampleBadgedPage; requests := [] |}).
  intros h Hin. apply elem_of_cons in Hin as [->|Hin]; [|by apply elem_of_nil in Hin].
  eexists. split; [vm_compute; reflexivity|]. eexists. vm_compute. reflexivity.
Defined.


(* ================================================================== *)
(** * Further properties *)
(* ================================================================== *)

(** ** The classifier, case by case *)

(** The classes that tell the kinds of badge apart. *)
Definition statusClasses : list string :=
  ["rgh-review-status-to-merge"; "rgh-review-status-feedback";
   "rgh-review-status-needed"; "rgh-review-status-reviewed";
   "rgh-review-status-updated"].

Section ClassifierCases.

Variable getURL : string → string.

(** Whose pull request it is decides which kinds of badge it can get: the
    viewer's own gets the ready-to-merge or the feedback badge, anybody
    else's the review-needed badge or the badge of the viewer's review; a
    badge carries one status class. *)
Theorem badge_kind_by_author (pr : PrData) (user : option string) (b : Element) :
  createReviewBadge getURL pr user = Some b →
  length (filter (λ c, contains c b = true) statusClasses) = 1
  ∧ (login <$> prAuthor pr = user
     ↔ contains "rgh-review-status-to-merge" b = true
       ∨ contains "rgh-review-status-feedback" b = true).
Proof.
  unfold createReviewBadge, isReadyToMerge.
  destruct (decide (login <$> prAuthor pr = user)) as [Hme|Hother].
  - rewrite (strictEq_true _ _ Hme).
    repeat case_match; intros [= <-]; simplify_eq;
      (split; [reflexivity|]); split; auto; intros _; vm_compute; auto.
  - rewrite (strictEq_false _ _ Hother). unfold getReviewIconConfig.
    repeat case_match; intros [= <-]; simplify_eq;
      (split; [reflexivity|]); (split; [done|]); vm_compute; intros [Hc|Hc];
      discriminate Hc.
Qed.

(** On a pull request of somebody else there is no badge exactly when the
    viewer has not reviewed it and it is a draft or has "wip" in its title,
    or when the viewer's last review is DISMISSED or PENDING. *)
Theorem no_badge_on_other_pr (pr : PrData) (user : option string) :
  login <$> prAuthor pr ≠ user →
  createReviewBadge getURL pr user = None
  ↔ (viewerLatestReview pr ≫= state = None
     ∧ (isDraft pr = true ∨ containsWip (title pr)))
    ∨ viewerLatestReview pr ≫= state = Some DISMISSED
    ∨ viewerLatestReview pr ≫= state = Some PENDING.
Proof.
  intros Hother. unfold createReviewBadge.
  rewrite isReadyToMerge_other by done.
  rewrite (strictEq_false _ _ Hother). cbn [andb]. unfold needsReview.
  rewrite <- titleContainsWip_spec.
  destruct (viewerLatestReview pr ≫= state) as [s|];
    [destruct s|]; cbn -[includes hasNewCommitsAfterReview];
    destruct (isDraft pr); destruct (includes _ _);
    cbn -[hasNewCommitsAfterReview]; naive_solver.
Qed.

(** A draft gets a badge exactly when it is somebody else's and the viewer
    reviewed it (APPROVED, CHANGES_REQUESTED or COMMENTED): drafts are never
    ready to merge, never show feedback and never ask for a review. *)
Theorem draft_badge (pr : PrData) (user : option string) :
  isDraft pr = true →
  is_Some (createReviewBadge getURL pr user)
  ↔ login <$> prAuthor pr ≠ user
    ∧ ∃ s, viewerLatestReview pr ≫= state = Some s
           ∧ (s = APPROVED ∨ s = CHANGES_REQUESTED ∨ s = COMMENTED).
Proof.
  intros Hdraft. unfold createReviewBadge, isReadyToMerge, needsReview.
  rewrite Hdraft, !andb_false_r. cbn [andb negb].
  destruct (decide (login <$> prAuthor pr = user)) as [Hme|Hother].
  - rewrite (strictEq_true _ _ Hme). split; [by intros [??]|naive_solver].
  - rewrite (strictEq_false _ _ Hother).
    destruct (viewerLatestReview pr ≫= state) as [s|];
      [destruct s|]; cbn -[hasNewCommitsAfterReview];
      (split; [intros [??]|intros [_ (s' & ? & ?)]]); try done;
      naive_solver.
Qed.

(** Whatever [createReviewBadge] returns is a tooltipped span of the badge
    class with a label, and holds no badge inside: the row filter and the
    check before insertion find it, and count it once. *)
Theorem badge_is_recognised (pr : PrData) (user : option string) (b : Element) :
  createReviewBadge getURL pr user = Some b →
  tag b = "span"
  ∧ contains badgeClass b = true
  ∧ contains "tooltipped" b = true
  ∧ is_Some (ariaLabel b)
  ∧ querySelector badgeClass b = None
  ∧ inert b = true.
Proof.
  unfold createReviewBadge, getReviewIconConfig.
  repeat case_match; intros [= <-]; simplify_eq;
    repeat split; try reflexivity; eexists; reflexivity.
Qed.

(** The [className] of [getReviewIconConfig] is never put on a badge. *)
Theorem icon_className_unused (pr : PrData) (user : option string) (b : Element)
    (s : option ReviewState) (hasNewCommits : bool) (cfg : ReviewIconConfig) :
  createReviewBadge getURL pr user = Some b →
  getReviewIconConfig s hasNewCommits = Some cfg →
  contains (className cfg) b = false.
Proof.
  intros Hb Hcfg.
  assert (className cfg = "rgh-review-status-approved"
          ∨ className cfg = "rgh-review-status-changes"
          ∨ className cfg = "rgh-review-status-commented") as Hname.
  { unfold getReviewIconConfig in Hcfg.
    destruct s as [[]|]; simplify_eq; simpl; auto. }
  revert Hb. unfold createReviewBadge, getReviewIconConfig.
  repeat case_match; intros [= <-]; simplify_eq;
    destruct Hname as [->|[->| ->]]; reflexivity.
Qed.

End ClassifierCases.

(** ** Counting and searching the review nodes *)

Lemma remove_dups_shorter (l : list string) :
  (length (remove_dups l) ≤ length l)%nat.
Proof.
  induction l as [|x l IH]; [done|].
  change (remove_dups (x :: l))
    with (if decide_rel elem_of x l then remove_dups l else x :: remove_dups l).
  destruct (decide_rel _ _ _); cbn [length]; lia.
Qed.

Lemma omap_shorter {A B} (f : A → option B) (l : list A) :
  (length (omap f l) ≤ length l)%nat.
Proof.
  induction l as [|x l IH]; [done|]. cbn [omap list_omap].
  destruct (f x); cbn [length]; lia.
Qed.

(** The approval count does not depend on the order of the nodes, is at
    most their number, and does not go down when further nodes come. *)
Theorem getApprovalCount_order_and_bounds (ns ns' more : list ApprovalNode) :
  (ns ≡ₚ ns' →
   getApprovalCount (Some (Build_Connection (Some ns)))
   = getApprovalCount (Some (Build_Connection (Some ns'))))
  ∧ (getApprovalCount (Some (Build_Connection (Some ns))) ≤ length ns)%nat
  ∧ (getApprovalCount (Some (Build_Connection (Some ns)))
     ≤ getApprovalCount (Some (Build_Connection (Some (ns ++ more)%list))))%nat.
Proof.
  rewrite !getApprovalCount_nodes, <- !size_list_to_set_remove_dups.
  split; [|split].
  - intros Hperm. f_equal. apply set_eq. intros l.
    rewrite !elem_of_list_to_set, !list_elem_of_omap.
    by setoid_rewrite Hperm.
  - rewrite size_list_to_set_remove_dups.
    etrans; [apply remove_dups_shorter|]. apply omap_shorter.
  - apply subseteq_size. intros l.
    rewrite !elem_of_list_to_set, omap_app, elem_of_app. auto.
Qed.

(** [getLatestCommentOrChangesRequested] answers with the first node, in
    the order of the list, that is a comment or a request for changes, and
    with nothing when there is none; what it answers with is in one of the
    two states, and the nodes behind it do not matter. *)
Theorem first_feedback_wins (latest : option (Connection LatestReviewNode)) :
  (getLatestCommentOrChangesRequested latest = None
   ↔ nodesOf latest = None
     ∨ ∃ ns, nodesOf latest = Some ns ∧ Forall (λ r, ¬ isFeedback r) ns)
  ∧ (∀ fb, getLatestCommentOrChangesRequested latest = Some fb
           ↔ ∃ ns review, nodesOf latest = Some ns
                          ∧ mostRecentFeedback ns review
                          ∧ fb = {| fbState := latestState review;
                                    commitOid := oid <$> latestCommit review |})
  ∧ (∀ fb, getLatestCommentOrChangesRequested latest = Some fb →
           fbState fb = "COMMENTED" ∨ fbState fb = "CHANGES_REQUESTED").
Proof.
  assert (Hfirst : ∀ ns,
            (firstCommentOrChangesRequested ns = None
             ∧ Forall (λ r, ¬ isFeedback r) ns)
            ∨ ∃ review, mostRecentFeedback ns review
                ∧ firstCommentOrChangesRequested ns
                  = Some {| fbState := latestState review;
                            commitOid := oid <$> latestCommit review |}).
  { induction ns as [|r ns IH].
    - left. by split.
    - simpl. destruct (_ || _) eqn:E.
      + right. exists r. split; [|done]. exists [], ns.
        split; [done|]. split; [constructor|]. by apply isFeedback_test.
      + assert (¬ isFeedback r) as Hr.
        { rewrite <- isFeedback_test. congruence. }
        destruct IH as [[-> Hall]|(review & (pre & post & -> & Hpre & Hrev) & ->)].
        * left. split; [done|]. by constructor.
        * right. exists review. split; [|done]. exists (r :: pre), post.
          split; [done|]. split; [by constructor|done]. }
  assert (Hnone : ∀ ns review,
            mostRecentFeedback ns review → Forall (λ r, ¬ isFeedback r) ns → False).
  { intros ns review (pre & post & -> & _ & Hrev) Hall.
    apply Forall_app in Hall as [_ Hall]. apply Forall_cons in Hall as [? _]. done. }
  unfold getLatestCommentOrChangesRequested.
  destruct (nodesOf latest) as [ns|]; [|naive_solver].
  destruct (Hfirst ns) as [[Hfb Hall]|(review & Hrev & Hfb)]; rewrite Hfb.
  - split; [naive_solver|]. split; [|done]. intros fb. split; [done|].
    intros (ns' & review & [= <-] & Hrev & _). by destruct (Hnone ns review).
  - split; [|split].
    + split; [done|]. intros [?|(ns' & [= <-] & Hall)]; [done|].
      by destruct (Hnone ns review).
    + intros fb. split.
      * intros [= <-]. by exists ns, review.
      * intros (ns' & review' & [= <-] & Hrev' & ->).
        rewrite (firstCommentOrChangesRequested_Some ns review' Hrev') in Hfb.
        by injection Hfb as -> ->.
    + intros fb [= <-]. simpl. by destruct Hrev as (_ & _ & _ & _ & ?).
Qed.

(** ** Reading the path of a link *)

(** The character [c] occurs in [s]. *)
Fixpoint occurs (c : ascii) (s : string) : bool :=
  match s with
  | EmptyString => false
  | String d s' => Ascii.eqb d c || occurs c s'
  end.

Lemma split_free (sep : ascii) (a : string) :
  occurs sep a = false → split sep a = [a].
Proof.
  induction a as [|c a IH]; simpl; [done|].
  intros [Hc Ha]%orb_false_iff. rewrite Hc, (IH Ha). done.
Qed.

Lemma split_app (sep : ascii) (a b : string) :
  occurs sep a = false →
  split sep (a +:+ String sep b) = a :: split sep b.
Proof.
  induction a as [|c a IH]; simpl.
  - intros _. by rewrite Ascii.eqb_refl.
  - intros [Hc Ha]%orb_false_iff. rewrite Hc, (IH Ha). done.
Qed.

Lemma append_empty (s : string) : s +:+ EmptyString = s.
Proof.
  induction s as [|c s IH]; [done|].
  change (String c (s +:+ EmptyString) = String c s). by rewrite IH.
Qed.

Section PathProperties.

Variable escapeKey : option string → option string → option string → string.
Variable JsNumber : Type.
Variable Number : option string → JsNumber.

(** A link to [/owner/name/<kind>/<number>], with or without further
    segments, is read as that owner, name and number; the fourth segment
    is not looked at. *)
Theorem toPrConfig_reads_path (doc : Element) (h : nat)
    (o n kind num tail : string) :
  linkPathname doc h
  = "/" +:+ o +:+ "/" +:+ n +:+ "/" +:+ kind +:+ "/" +:+ num +:+ tail →
  occurs "/" o = false → occurs "/" n = false →
  occurs "/" kind = false → occurs "/" num = false →
  tail = EmptyString ∨ (∃ t, tail = String "/" t) →
  toPrConfig escapeKey Number doc h
  = {| key := escapeKey (Some o) (Some n) (Some num);
       link := h;
       owner := Some o;
       name := Some n;
       number := Number (Some num) |}.
Proof.
  intros Hpath Ho Hn Hkind Hnum Htail. unfold toPrConfig. rewrite Hpath.
  change ("/" +:+ o +:+ "/" +:+ n +:+ "/" +:+ kind +:+ "/" +:+ num +:+ tail)
    with (EmptyString +:+ String "/" (o +:+ String "/" (n +:+ String "/"
            (kind +:+ String "/" (num +:+ tail))))).
  rewrite !split_app by done.
  assert (∃ rest, split "/" (num +:+ tail) = num :: rest) as [rest ->].
  { destruct Htail as [->|[t ->]].
    - exists []. rewrite append_empty. by apply split_free.
    - exists (split "/" t). by apply split_app. }
  reflexivity.
Qed.

End PathProperties.

(** ** What a run does to the page and to the server *)

(** The document without its badges: every element of the badge class
    below the root is taken out, with all it holds. *)
Fixpoint eraseBadges (e : Element) : Element :=
  match e with
  | Elem h t c a p kids =>
      Elem h t c a p
        (flat_map (λ k, if contains badgeClass k then [] else [eraseBadges k]) kids)
  end.

Lemma eraseBadges_afterIn (h : nat) (b e e' : Element) :
  contains badgeClass b = true →
  afterIn h b e = Some e' → eraseBadges e' = eraseBadges e.
Proof.
  intros Hb. revert e'.
  induction e as [eh t cl a p kids IH] using Element_tree_ind.
  intros e' (kids' & Hk & ->)%afterIn_Some. cbn [children handle tag classList
    attributes pathname] in *. simpl. f_equal. revert kids' Hk.
  induction IH as [|k rest Hk _ IHrest]; intros kids' H; simpl in H; [done|].
  destruct (decide (handle k = Some h)).
  - injection H as <-. simpl. by rewrite Hb.
  - destruct (afterIn h b k) as [k'|] eqn:Ek.
    + injection H as <-. simpl.
      rewrite (afterIn_contains _ _ _ _ badgeClass Ek), (Hk k' eq_refl). done.
    + destruct (insertAmong _ _ _ rest) as [rest'|]; [|done].
      injection H as <-. simpl. by rewrite (IHrest rest' eq_refl).
Qed.

Section RunProperties.

Variable getURL : string → string.
Variable escapeKey : option string → option string → option string → string.
Variable JsNumber : Type.
Variable Number : option string → JsNumber.
Variable numberText : JsNumber → string.
Variable v4 : string → option (gmap string (option Repository)).
Variable loggedInUser : option string.

Implicit Types (data : gmap string (option Repository)) (pr : PrConfig JsNumber).
Implicit Types (doc d : Element) (links : list nat) (w : World).

Local Notation "'run'" :=
  (addReviewStatus getURL escapeKey Number numberText v4 loggedInUser).
Local Notation "'collected'" := (collect escapeKey Number).
Local Notation "'loop'" := (annotate getURL loggedInUser).

Lemma collect_nil links doc :
  collected links doc = [] ↔ ∀ h, h ∈ links → notYetProcessed doc h = false.
Proof.
  split.
  - intros Hnil h Hin. apply not_true_is_false. intros Hkeep.
    assert (toPrConfig escapeKey Number doc h ∈ collected links doc) as Hpr.
    { apply elem_of_collect. by exists h. }
    rewrite Hnil in Hpr. by apply elem_of_nil in Hpr.
  - intros Hall. destruct (collected links doc) as [|pr prs] eqn:E; [done|].
    assert (pr ∈ collected links doc) as Hpr by (rewrite E; by left).
    apply elem_of_collect in Hpr as (h & Hin & Hkeep & _).
    rewrite (Hall h Hin) in Hkeep. done.
Qed.

(** A run sends one request, for all the links still to annotate, or none
    when there is none; what was sent before stays in the log. *)
Theorem one_request_per_run links w :
  (requests (run links w).2 = requests w
   ∧ ∀ h, h ∈ links → notYetProcessed (document w) h = false)
  ∨ (requests (run links w).2
     = (requests w ++ [batchQuery numberText (collected links (document w))])%list
     ∧ ∃ h, h ∈ links ∧ notYetProcessed (document w) h = true).
Proof.
  unfold addReviewStatus.
  destruct (collected links (document w)) as [|pr prs] eqn:E.
  - left. split; [done|]. by apply collect_nil.
  - right. split; [by destruct (v4 _)|].
    assert (pr ∈ collected links (document w)) as Hpr by (rewrite E; by left).
    apply elem_of_collect in Hpr as (h & Hin & Hkeep & _). eauto.
Qed.

(** The run is rejected exactly when a request was due and failed; the
    page is then as it was. *)
Theorem rejected_run links w :
  ((run links w).1 = Rejected
   ↔ (∃ h, h ∈ links ∧ notYetProcessed (document w) h = true)
     ∧ v4 (batchQuery numberText (collected links (document w))) = None)
  ∧ ((run links w).1 = Rejected → document (run links w).2 = document w).
Proof.
  unfold addReviewStatus.
  destruct (collected links (document w)) as [|pr prs] eqn:E.
  - split; [|done]. split; [done|]. intros [(h & Hin & Hkeep) _].
    rewrite (proj1 (collect_nil links (document w)) E h Hin) in Hkeep. done.
  - assert (pr ∈ collected links (document w)) as Hpr by (rewrite E; by left).
    apply elem_of_collect in Hpr as (h & Hin & Hkeep & _).
    destruct (v4 _); simpl; split; try done; split; try done; eauto.
    by intros [_ ?].
Qed.

(** A run only adds badges: without the badges, the page after the run is
    the page before it. *)
Theorem only_badges_added links w :
  eraseBadges (document (run links w).2) = eraseBadges (document w).
Proof.
  destruct (addReviewStatus_document getURL escapeKey JsNumber Number numberText
              v4 loggedInUser links w) as [->|(data & _ & ->)]; [done|].
  apply (annotate_preserves getURL JsNumber loggedInUser
           (λ d, eraseBadges d = eraseBadges (document w))); [|done].
  intros x y (h & b & (_ & Hb & _) & Hxy) <-. by eapply eraseBadges_afterIn.
Qed.

(** A run never takes a badge away and adds at most one for each observed
    link. *)
Theorem badges_added_bound links w :
  (countClass badgeClass (descendants (document w))
   ≤ countClass badgeClass (descendants (document (run links w).2)))%nat
  ∧ (countClass badgeClass (descendants (document (run links w).2))
     ≤ countClass badgeClass (descendants (document w)) + length links)%nat.
Proof.
  assert (Hloop : ∀ data (prs : list (PrConfig JsNumber)) d,
            (countClass badgeClass (descendants d)
             ≤ countClass badgeClass (descendants (loop data prs d)))%nat
            ∧ (countClass badgeClass (descendants (loop data prs d))
               ≤ countClass badgeClass (descendants d) + length prs)%nat).
  { intros data prs. induction prs as [|pr prs IH]; intros d.
    { unfold annotate. simpl. lia. }
    change (loop data (pr :: prs) d)
      with (loop data prs (annotateOne getURL loggedInUser data d pr)).
    cbn [length].
    specialize (IH (annotateOne getURL loggedInUser data d pr)).
    destruct (annotateOne_cases getURL JsNumber loggedInUser data d pr)
      as [Heq|(b & (_ & Hc & Hin) & _ & _ & Hd)].
    - rewrite Heq in *. lia.
    - rewrite (countClass_afterIn badgeClass _ _ _ _ Hd), countClass_cons, Hc, Hin
        in IH. lia. }
  destruct (addReviewStatus_document getURL escapeKey JsNumber Number numberText
              v4 loggedInUser links w) as [->|(data & _ & ->)]; [lia|].
  specialize (Hloop data (collected links (document w)) (document w)).
  assert (length (collected links (document w)) ≤ length links)%nat; [|lia].
  unfold collect. rewrite length_map.
  pose proof (List.filter_length (notYetProcessed (document w)) links). lia.
Qed.

(** After a run that got its answer, a badge follows every link that was
    still to annotate, is not the root, and has data and a badge to show. *)
Theorem badge_follows_link links w data (h : nat) (prData : PrData) :
  v4 (batchQuery numberText (collected links (document w))) = Some data →
  h ∈ links →
  notYetProcessed (document w) h = true →
  handle (document w) ≠ Some h →
  lookupPr data (toPrConfig escapeKey Number (document w) h) = Some prData →
  is_Some (createReviewBadge getURL prData loggedInUser) →
  ∃ s, nextElementSibling h (document (run links w).2) = Some s
       ∧ contains badgeClass s = true.
Proof.
  intros Hdata Hin Hkeep Hroot Hpr [b Hb].
  rewrite (addReviewStatus_answered getURL escapeKey JsNumber Number numberText
             v4 loggedInUser links w data Hdata).
  set (doc1 := annotate _ _ _ _ _).
  assert (Hframe : handle doc1 = handle (document w)
                   ∧ is_Some (closest rowClass h doc1)).
  { apply (annotate_preserves getURL JsNumber loggedInUser
             (λ d, handle d = handle (document w)
                   ∧ is_Some (closest rowClass h d))).
    - intros x y (h' & b' & (Hb' & _) & Hxy) [Hh [row Hrow]]. split.
      + rewrite <- Hh. by apply afterIn_root in Hxy as [? _].
      + destruct (closest_inserted_Some rowClass h h' b' x y row Hb' Hxy Hrow)
          as (row' & -> & _). done.
    - split; [done|]. unfold notYetProcessed in Hkeep.
      by destruct (closest rowClass h (document w)). }
  destruct Hframe as [Hhandle [row Hrow]].
  assert (Hattached : nextIn h doc1 ≠ None).
  { intros Hn. apply nextIn_None_absent in Hn; [|congruence].
    apply (absent_closestIn rowClass) in Hn. unfold closest in Hrow.
    by rewrite Hn in Hrow. }
  assert (Hset : settled getURL JsNumber loggedInUser data
                   (toPrConfig escapeKey Number (document w) h) doc1).
  { apply settled_annotate, elem_of_collect. by exists h. }
  destruct Hset as [?|[(? & ? & ?)|[Hf|[?|?]]]]; simpl in *; try congruence.
  unfold badgeFollows in Hf.
  destruct (nextElementSibling h doc1) as [s|]; [|done]. by exists s.
Qed.

End RunProperties.

(** ** The earlier revisions and the current one *)

(** The turn inserts what [badgeFor] says, unless a badge follows the link. *)
Lemma Part000_annotateOne_badgeFor {JsNumber : Type}
    (data : gmap string (option Repository)) (doc : Element)
    (pr : PrConfig JsNumber) :
  Part000.annotateOne data doc pr
  = match lookupPr data pr with
    | None => doc
    | Some prData =>
        if badgeFollows (link pr) doc then doc
        else match Part000.badgeFor prData with
             | Some badge => after (link pr) badge doc
             | None => doc
             end
    end.
Proof.
  unfold Part000.annotateOne, Part000.badgeFor.
  destruct (lookupPr data pr) as [prData|]; [|done].
  destruct (viewerLatestReview prData ≫= state) as [[]|];
    destruct (badgeFollows _ _); try done;
    by destruct (hasNewCommitsAfterReview _ _).
Qed.

Lemma Part001_annotateOne_badgeFor {JsNumber : Type} (user : option string)
    (data : gmap string (option Repository)) (doc : Element)
    (pr : PrConfig JsNumber) :
  Part001.annotateOne user data doc pr
  = match lookupPr data pr with
    | None => doc
    | Some prData =>
        if badgeFollows (link pr) doc then doc
        else match Part001.badgeFor prData user with
             | Some badge => after (link pr) badge doc
             | None => doc
             end
    end.
Proof.
  unfold Part001.annotateOne, Part001.badgeFor, Part000.badgeFor, needsReview.
  destruct (lookupPr data pr) as [prData|]; [|done].
  destruct (badgeFollows _ _); [done|].
  cbv zeta. destruct (nodesOf (reviews prData)) as [ns|];
    unfold default; cbn [from_option id].
  - set (n := length (List.filter _ ns)).
    destruct (strictEq _ _), (isDraft prData), (2 <=? n)%nat; cbn [andb negb];
      try done; repeat case_match; simplify_eq/=; done.
  - change (2 <=? length (List.filter _ []))%nat with false.
    rewrite andb_false_r.
    destruct (strictEq _ _), (isDraft prData); cbn [andb negb];
      try done; repeat case_match; simplify_eq/=; done.
Qed.

(** On a pull request of somebody else that the viewer reviewed, the turn
    of the later revision does what the turn of the earlier one does. *)
Theorem part001_keeps_review_badges {JsNumber : Type} (user : option string)
    (data : gmap string (option Repository)) (doc : Element)
    (pr : PrConfig JsNumber) :
  (∀ prData, lookupPr data pr = Some prData →
             login <$> prAuthor prData ≠ user
             ∧ is_Some (viewerLatestReview prData ≫= state)) →
  Part001.annotateOne user data doc pr = Part000.annotateOne data doc pr.
Proof.
  intros Hpr. rewrite Part001_annotateOne_badgeFor, Part000_annotateOne_badgeFor.
  destruct (lookupPr data pr) as [prData|]; [|done].
  destruct (Hpr prData eq_refl) as [Hother [s Hs]].
  unfold Part001.badgeFor, needsReview.
  rewrite (strictEq_false _ _ Hother), Hs. cbn [andb]. done.
Qed.



(** On a pull request of somebody else the current revision shows a badge
    where the earlier one did, with the same label and the same content
    (icon and indicator), and marks new commits when the earlier one did. *)
Theorem same_badges_for_others_since_part001 (getURL : string → string)
    (pr : PrData) (user : option string) :
  login <$> prAuthor pr ≠ user →
  option_Forall2
    (λ old new, tag old = tag new ∧ ariaLabel old = ariaLabel new
                ∧ children old = children new
                ∧ contains "rgh-review-status-updated" old
                  = contains "rgh-review-status-updated" new
                ∧ contains "rgh-review-status-needed" old
                  = contains "rgh-review-status-needed" new)
    (Part001.badgeFor pr user) (createReviewBadge getURL pr user).
Proof.
  intros Hother. unfold createReviewBadge, Part001.badgeFor, Part000.badgeFor.
  rewrite isReadyToMerge_other by done.
  rewrite (strictEq_false _ _ Hother). cbn [andb].
  destruct (needsReview _ _ _); [by constructor|].
  unfold getReviewIconConfig.
  destruct (viewerLatestReview pr ≫= state) as [[]|];
    cbn -[hasNewCommitsAfterReview]; try constructor;
    by destruct (hasNewCommitsAfterReview _ _).
Qed.

(** ** The further properties on samples *)

(** Somebody else's draft that the viewer approved. *)
Definition sampleDraft : PrData :=
  {| isDraft := true; title := "WIP: add feature";
     prAuthor := Some {| login := "alice" |};
     reviews := noReviews;
     reviewThreads := noReviews;
     latestReviews := noReviews;
     viewerLatestReview := Some (sampleApprovedOn "def");
     headRefOid := "def" |}.

(** The viewer's pull request, approved twice by the same reviewer. *)
Definition sampleSameApprover : PrData :=
  {| isDraft := false; title := "Add feature";
     prAuthor := Some {| login := "me" |};
     reviews := Some (Build_Connection (Some [approvalBy "alice"; approvalBy "alice"]));
     reviewThreads := noReviews;
     latestReviews := noReviews;
     viewerLatestReview := None;
     headRefOid := "def" |}.

(** The server knows pull request 6 as somebody else's, reviewed by the
    viewer. *)
Definition sampleReviewedData : gmap string (option Repository) :=
  {[ "_o_n_6" :=
       Some {| pullRequest :=
                 Some (sampleOther "Add feature" (Some (sampleApprovedOn "abc"))) |} ]}.

Lemma badge_kind_by_author_witness :
  ∃ b, createReviewBadge sampleGetURL sampleReady (Some "me") = Some b
       ∧ length (filter (λ c, contains c b = true) statusClasses) = 1
       ∧ contains "rgh-review-status-to-merge" b = true.
Proof.
  eexists. split; [reflexivity|].
  destruct (badge_kind_by_author sampleGetURL sampleReady (Some "me") _ eq_refl)
    as [Hone Hkind].
  split; [exact Hone|]. by vm_compute.
Defined.

Lemma no_badge_on_other_pr_witness :
  createReviewBadge sampleGetURL (sampleOther "WIP: add feature" None) (Some "me")
  = None.
Proof.
  apply (no_badge_on_other_pr sampleGetURL (sampleOther "WIP: add feature" None)
           (Some "me")).
  - intros H. discriminate H.
  - left. split; [reflexivity|]. right.
    exists EmptyString, "W"%char, "I"%char, "P"%char, ": add feature".
    split; [reflexivity|]. repeat split; by right.
Defined.

Lemma draft_badge_witness :
  is_Some (createReviewBadge sampleGetURL sampleDraft (Some "me")).
Proof.
  apply (draft_badge sampleGetURL sampleDraft (Some "me")).
  - reflexivity.
  - split; [intros H; discriminate H|]. exists APPROVED. split; [reflexivity|by left].
Defined.

Lemma badge_is_recognised_witness :
  ∃ b, createReviewBadge sampleGetURL sampleFeedback (Some "me") = Some b
       ∧ contains badgeClass b = true ∧ querySelector badgeClass b = None.
Proof.
  eexists. split; [reflexivity|].
  destruct (badge_is_recognised sampleGetURL sampleFeedback (Some "me") _ eq_refl)
    as (_ & Hclass & _ & _ & Hnone & _).
  by split.
Defined.

Lemma icon_className_unused_witness :
  ∃ b, createReviewBadge sampleGetURL
         (sampleOther "Add feature" (Some (sampleApprovedOn "abc"))) (Some "me")
       = Some b
       ∧ contains "rgh-review-status-approved" b = false.
Proof.
  eexists. split; [reflexivity|].
  apply (icon_className_unused sampleGetURL
           (sampleOther "Add feature" (Some (sampleApprovedOn "abc"))) (Some "me")
           _ (Some APPROVED) true
           {| icon := jsx "CheckIcon" ["v-align-middle"] [] [];
              label := "You approved this PR (new commits since review)";
              className := "rgh-review-status-approved" |});
    reflexivity.
Defined.

Lemma getApprovalCount_order_and_bounds_witness :
  getApprovalCount
    (Some (Build_Connection (Some [approvalBy "alice"; approvalBy "bob"])))
  = getApprovalCount
      (Some (Build_Connection (Some [approvalBy "bob"; approvalBy "alice"]))).
Proof.
  destruct (getApprovalCount_order_and_bounds
              [approvalBy "alice"; approvalBy "bob"]
              [approvalBy "bob"; approvalBy "alice"] []) as [Hperm _].
  apply Hperm. apply perm_swap.
Defined.

Lemma toPrConfig_reads_path_witness :
  toPrConfig sampleEscapeKey (λ s : option string, s) samplePage 1
  = {| key := "_o_n_5"; link := 1; owner := Some "o"; name := Some "n";
       number := Some "5" |}.
Proof.
  apply (toPrConfig_reads_path sampleEscapeKey (option string)
           (λ s : option string, s) samplePage 1 "o" "n" "pull" "5" EmptyString);
    try reflexivity.
  by left.
Defined.

Lemma badge_follows_link_witness :
  ∃ s, nextElementSibling 1
         (document (sampleRun [1; 2] {| document := samplePage; requests := [] |}).2)
       = Some s
       ∧ contains badgeClass s = true.
Proof.
  apply (badge_follows_link sampleGetURL sampleEscapeKey (option string)
           (λ s : option string, s) interpolate sampleV4 (Some "me") [1; 2]
           {| document := samplePage; requests := [] |} sampleData 1 sampleReady).
  - reflexivity.
  - by left.
  - reflexivity.
  - intros H. discriminate H.
  - reflexivity.
  - eexists. vm_compute. reflexivity.
Defined.

Lemma part001_keeps_review_badges_witness :
  Part001.annotateOne (Some "me") sampleReviewedData samplePage
    (toPrConfig sampleEscapeKey (λ s : option string, s) samplePage 2)
  = Part000.annotateOne sampleReviewedData samplePage
      (toPrConfig sampleEscapeKey (λ s : option string, s) samplePage 2).
Proof.
  apply part001_keeps_review_badges.
  intros prData Hpr. vm_compute in Hpr. injection Hpr as <-.
  split; [intros H; discriminate H|]. eexists. reflexivity.
Defined.


(** The earlier revision counts the same reviewer twice; the current one
    does not. *)
Example same_approver_twice :
  is_Some (Part001.badgeFor sampleSameApprover (Some "me"))
  ∧ createReviewBadge sampleGetURL sampleSameApprover (Some "me") = None.
Proof. split; [eexists; vm_compute; reflexivity | vm_compute; reflexivity]. Qed.

Lemma same_badges_for_others_since_part001_witness :
  ∃ old new,
    Part001.badgeFor (sampleOther "Add feature" (Some (sampleApprovedOn "abc")))
      (Some "me") = Some old
    ∧ createReviewBadge sampleGetURL
        (sampleOther "Add feature" (Some (sampleApprovedOn "abc"))) (Some "me")
      = Some new
    ∧ ariaLabel old = ariaLabel new ∧ children old = children new.
Proof.
  assert (login <$> prAuthor (sampleOther "Add feature" (Some (sampleApprovedOn "abc")))
          ≠ Some "me") as Hother by (intros H; discriminate H).
  pose proof (same_badges_for_others_since_part001 sampleGetURL
                (sampleOther "Add feature" (Some (sampleApprovedOn "abc")))
                (Some "me") Hother) as Hsame.
  inversion Hsame as [old new (_ & Hlabel & Hkids & _) Hold Hnew|].
  exists old, new. subst old new.
  split; [reflexivity|]. split; [reflexivity|]. by split.
Defined.
